(** * NDI-Multicam: a shallow embedding of the receiver, the transmitter's
    timecode listener and the local saver's timecode listener.

    Part I holds the model (one module per source file, preceded by the
    Python and library vocabulary they share); Part II holds the lemmas and
    theorems.

    Conventions of the embedding.
    - A numpy array is an object on a heap [gmap loc ndarray]; a Python
      variable holding an array holds its location, so that two names bound
      to one array alias each other, and [.copy()] allocates.
    - The contents of an array are kept symbolic: a term built from the
      pixel data delivered by the NDI library and from the OpenCV / numpy
      calls the program applies to it.  Nothing is assumed about what those
      calls compute.  Reading an attribute that the cv2 module does not
      have raises [AttributeError], as in Python.
    - A Python [dict] is an association list in insertion order.
    - Library objects (sockets, threads, video writers) are records of the
      few facts the program can change about them; calls whose only effect
      is on the outside world are recorded in a trace.
    - [print] calls and [time.sleep] are left out. *)

From stdpp Require Import gmap strings list fin_maps pretty.
From Stdlib Require Import ZArith QArith.

Close Scope Q_scope.

Set Default Proof Using "Type".
#[local] Set Warnings "-clear-no-such-hyp".

(* ===================================================================== *)
(** * Part I: the model                                                   *)
(* ===================================================================== *)

(** ** Python vocabulary *)

Module Py.

(** [dict]: keys are unique and iteration follows insertion order;
    assigning to an existing key keeps its position. *)
Section dict.
Context {V : Type}.

Fixpoint dict_set (k : string) (v : V) (d : list (string * V))
  : list (string * V) :=
  match d with
  | [] => [(k, v)]
  | (k', v') :: d' =>
      if decide (k' = k) then (k, v) :: d' else (k', v') :: dict_set k v d'
  end.

Fixpoint dict_get (k : string) (d : list (string * V)) : option V :=
  match d with
  | [] => None
  | (k', v') :: d' => if decide (k' = k) then Some v' else dict_get k d'
  end.

(** [k in d] *)
Definition dict_in (k : string) (d : list (string * V)) : bool :=
  bool_decide (is_Some (dict_get k d)).

Definition dict_keys (d : list (string * V)) : list string := d.*1.
Definition dict_values (d : list (string * V)) : list V := d.*2.
End dict.

(** [str()] and [repr()] of a value. *)
Class Format (A : Type) := { str : A → string; repr : A → string }.

#[export] Instance int_format : Format Z := {| str := pretty; repr := pretty |}.

Fixpoint join (sep : string) (parts : list string) : string :=
  match parts with
  | [] => ""
  | [p] => p
  | p :: ps => p +:+ sep +:+ join sep ps
  end.

(** [str(t)] for a tuple [t]: the [repr] of its items. *)
Definition str_tuple `{Format A} (t : list A) : string :=
  match t with
  | [x] => "(" +:+ repr x +:+ ",)"
  | _ => "(" +:+ join ", " (repr <$> t) +:+ ")"
  end.

(** [ord(c)] for the three keys the receiver listens to. *)
Definition ord_q : Z := 113.
Definition ord_r : Z := 114.
Definition ord_s : Z := 115.

End Py.

(** ** numpy / OpenCV vocabulary *)

Module Cv.

Definition point : Type := Z * Z.
Definition scalar : Type := Z * Z * Z.

(** The contents of an array, as the history of calls that produced it.
    [ndi_video_data] is the pixel data of one frame handed over by the NDI
    library ([v.data]); every other constructor is the call of that name. *)
Inductive ndarray : Type :=
| ndi_video_data (id : nat) (yres xres : Z)
| np_zeros (h w c : Z)
| cvtColor (src : ndarray) (code : string)
| rectangle (img : ndarray) (pt1 pt2 : point) (color : scalar) (thickness : Z)
| addWeighted (src1 : ndarray) (alpha : Q) (src2 : ndarray) (beta gamma : Q)
| resize (src : ndarray) (dsize : Z * Z)
| circle (img : ndarray) (center : point) (radius : Z) (color : scalar)
    (thickness : Z)
| putText (img : ndarray) (text : string) (org : point) (fontFace : Z)
    (fontScale : Q) (color : scalar) (thickness : Z)
| assign_slice (dst : ndarray) (y_start y_end x_start x_end : Z)
    (src : ndarray).

(** [a.shape[:2]], as (height, width). *)
Fixpoint shape (a : ndarray) : Z * Z :=
  match a with
  | ndi_video_data _ yres xres => (yres, xres)
  | np_zeros h w _ => (h, w)
  | cvtColor src _ => shape src
  | rectangle img _ _ _ _ => shape img
  | addWeighted src1 _ _ _ _ => shape src1
  | resize _ (w, h) => (h, w)
  | circle img _ _ _ _ => shape img
  | putText img _ _ _ _ _ _ => shape img
  | assign_slice dst _ _ _ _ _ => shape dst
  end.

(** Whether one of the drawing calls occurs in the history of an array. *)
Fixpoint drawn_on (a : ndarray) : bool :=
  match a with
  | ndi_video_data _ _ _ | np_zeros _ _ _ => false
  | cvtColor src _ => drawn_on src
  | resize src _ => drawn_on src
  | assign_slice dst _ _ _ _ src => drawn_on dst || drawn_on src
  | rectangle _ _ _ _ _ | addWeighted _ _ _ _ _
  | circle _ _ _ _ _ | putText _ _ _ _ _ _ _ => true
  end.

(** The heap of arrays. *)
Definition loc : Type := nat.
Abbreviation heap := (gmap loc ndarray).

(** Reading through a reference.  A Python reference always points to a
    live object; the default only makes the function total. *)
Definition deref (σ : heap) (l : loc) : ndarray :=
  default (np_zeros 0 0 0) (σ !! l).

(** A newly created array object. *)
Definition alloc (a : ndarray) (σ : heap) : loc * heap :=
  let l := fresh (dom σ) in (l, <[l := a]> σ).

(** An in-place change of the array at [l]. *)
Definition mutate (f : ndarray → ndarray) (l : loc) (σ : heap) : heap :=
  <[l := f (deref σ l)]> σ.

(** An exception that leaves a function of the program, and the outcome of
    a call that may raise one. *)
Inductive exception : Type :=
| AttributeError (module attribute : string).

Inductive outcome (A : Type) : Type :=
| returned (value : A)
| raised (e : exception).
Arguments returned {A} value.
Arguments raised {A} e.

(** The font constants of the [cv2] module ([enum HersheyFonts]); reading
    any other name of this kind from the module fails. *)
Definition cv2_fonts : list (string * Z) :=
  [("FONT_HERSHEY_SIMPLEX", 0%Z); ("FONT_HERSHEY_PLAIN", 1%Z);
   ("FONT_HERSHEY_DUPLEX", 2%Z); ("FONT_HERSHEY_COMPLEX", 3%Z);
   ("FONT_HERSHEY_TRIPLEX", 4%Z); ("FONT_HERSHEY_COMPLEX_SMALL", 5%Z);
   ("FONT_HERSHEY_SCRIPT_SIMPLEX", 6%Z);
   ("FONT_HERSHEY_SCRIPT_COMPLEX", 7%Z); ("FONT_ITALIC", 16%Z)].

(** [cv2.<name>] for a font constant. *)
Definition cv2_font (name : string) : outcome Z :=
  match Py.dict_get name cv2_fonts with
  | Some font => returned font
  | None => raised (AttributeError "cv2" name)
  end.

(** [cv2.VideoWriter(output_path, fourcc, fps, frameSize)] *)
Record VideoWriter : Type := {
  output_path : string;
  fourcc : string;
  fps : Z;
  frameSize : Z * Z
}.

(** What the program does to the outside world. *)
Inductive io : Type :=
| VideoWriter_write (writer : VideoWriter) (frame : ndarray)
| VideoWriter_release (writer : VideoWriter)
| imshow (winname : string) (mat : ndarray).

End Cv.

(** ** src/ndi_receiver.py *)

Module ndi_receiver.
Import Py Cv.

(** *** The NDI library, as seen by one call of [NDIReceiver.connect] *)

Record Source : Type := { ndi_name : string; url_address : string }.

(** What the library answers during one connection attempt:
    [find_get_current_sources k] is the list returned by the [k]-th call
    (counted from 0) of [ndi.find_get_current_sources]. *)
Record NDIlib : Type := {
  initialize : bool;
  find_create_v2 : bool;
  find_get_current_sources : nat → list Source;
  recv_create_v3 : bool
}.

Record recv_instance : Type := { connected_to : option Source }.

(** *** class NDIReceiver *)

Record NDIReceiver : Type := {
  source_name : string;
  running : bool;
  ndi_recv : option recv_instance;
  latest_frame : option loc;
  thread : bool
}.

Definition NDIReceiver_init (source_name : string) : NDIReceiver :=
  {| source_name := source_name; running := false; ndi_recv := None;
     latest_frame := None; thread := false |}.

Definition is_named (name : string) (s : Source) : bool :=
  bool_decide (ndi_name s = name).

(** The loop [for _ in range(20)] of [connect]: [attempts] iterations are
    left, [k] calls of [find_get_current_sources] have been made, and
    [sources] is the variable of that name.  Returns the final [sources] and
    the number of calls made. *)
Fixpoint wait_for_source (name : string) (ndi : NDIlib) (attempts k : nat)
    (sources : list Source) : list Source * nat :=
  match attempts with
  | O => (sources, k)
  | S attempts' =>
      let sources := find_get_current_sources ndi k in
      if existsb (is_named name) sources then (sources, S k)
      else wait_for_source name ndi attempts' (S k) sources
  end.

(** [connect]: the result, the receiver afterwards and the number of polls
    of the source list. *)
Definition connect (ndi : NDIlib) (self : NDIReceiver)
  : bool * NDIReceiver * nat :=
  if negb (initialize ndi) then (false, self, 0)
  else if negb (find_create_v2 ndi) then (false, self, 0)
  else
    let '(sources, polls) :=
      wait_for_source (source_name self) ndi 20 0 [] in
    match find (is_named (source_name self)) sources with
    | None => (false, self, polls)
    | Some source =>
        if recv_create_v3 ndi then
          (true,
           {| source_name := source_name self; running := running self;
              ndi_recv := Some {| connected_to := Some source |};
              latest_frame := latest_frame self; thread := thread self |},
           polls)
        else
          (false,
           {| source_name := source_name self; running := running self;
              ndi_recv := None;
              latest_frame := latest_frame self; thread := thread self |},
           polls)
    end.

(** [start] *)
Definition start (ndi : NDIlib) (self : NDIReceiver) : bool * NDIReceiver :=
  let '(ok, self, _) := connect ndi self in
  if negb ok then (false, self)
  else
    (true,
     {| source_name := source_name self; running := true;
        ndi_recv := ndi_recv self; latest_frame := latest_frame self;
        thread := true |}).

(** One pass of the body of [receive_loop] in which [recv_capture_v2]
    delivered a video frame with data [v_data]: the converted copy becomes
    a new array object and the register points to it. *)
Definition receive_video (v_data : ndarray) (self : NDIReceiver) (σ : heap)
  : NDIReceiver * heap :=
  let '(frame, σ) := alloc (cvtColor v_data "COLOR_BGRA2BGR") σ in
  ({| source_name := source_name self; running := running self;
      ndi_recv := ndi_recv self; latest_frame := Some frame;
      thread := thread self |}, σ).

(** [get_latest_frame] *)
Definition get_latest_frame (self : NDIReceiver) (σ : heap)
  : option loc * heap :=
  match latest_frame self with
  | Some l => let '(copy, σ) := alloc (deref σ l) σ in (Some copy, σ)
  | None => (None, σ)
  end.

(** [stop] *)
Definition NDIReceiver_stop (self : NDIReceiver) : NDIReceiver :=
  {| source_name := source_name self; running := false;
     ndi_recv := ndi_recv self; latest_frame := latest_frame self;
     thread := thread self |}.

(** *** class MultiCameraRecorder *)

Record MultiCameraRecorder : Type := {
  source_names : list string;
  receivers : list (string * NDIReceiver);
  writers : list (string * VideoWriter);
  recording : bool;
  recorder_running : bool;
  output_dir : option string
}.

Definition MultiCameraRecorder_init (source_names : list string)
  : MultiCameraRecorder :=
  {| source_names := source_names; receivers := []; writers := [];
     recording := false; recorder_running := false; output_dir := None |}.

(** The loop of [connect_sources]; [ndi i] is what the library answers
    during the attempt for the [i]-th requested name. *)
Fixpoint connect_each (ndi : nat → NDIlib) (i : nat) (names : list string)
    (receivers : list (string * NDIReceiver)) : list (string * NDIReceiver) :=
  match names with
  | [] => receivers
  | name :: names' =>
      let '(ok, receiver) := start (ndi i) (NDIReceiver_init name) in
      connect_each ndi (S i) names'
        (if ok then dict_set name receiver receivers else receivers)
  end.

Definition connect_sources (ndi : nat → NDIlib) (self : MultiCameraRecorder)
  : bool * MultiCameraRecorder :=
  let receivers := connect_each ndi 0 (source_names self) (receivers self) in
  let self :=
    {| source_names := source_names self; receivers := receivers;
       writers := writers self; recording := recording self;
       recorder_running := recorder_running self;
       output_dir := output_dir self |} in
  (match receivers with [] => false | _ => true end, self).

(** The loop of [start_recording]. *)
Fixpoint open_writers (output_dir : string)
    (items : list (string * NDIReceiver))
    (writers : list (string * VideoWriter)) (σ : heap)
  : list (string * VideoWriter) * heap :=
  match items with
  | [] => (writers, σ)
  | (name, receiver) :: items' =>
      let '(frame, σ) := get_latest_frame receiver σ in
      match frame with
      | Some l =>
          let '(h, w) := shape (deref σ l) in
          let output_path := output_dir +:+ "/" +:+ name +:+ ".mp4" in
          let writer :=
            {| output_path := output_path; fourcc := "mp4v"; fps := 60;
               frameSize := (w, h) |} in
          open_writers output_dir items' (dict_set name writer writers) σ
      | None => open_writers output_dir items' writers σ
      end
  end.

(** [start_recording]; [timestamp] is
    [datetime.now().strftime("%Y%m%d_%H%M%S")]. *)
Definition start_recording (timestamp : string) (self : MultiCameraRecorder)
    (σ : heap) : MultiCameraRecorder * heap :=
  let dir := "recordings/" +:+ timestamp in
  let '(writers, σ) := open_writers dir (receivers self) (writers self) σ in
  ({| source_names := source_names self; receivers := receivers self;
      writers := writers; recording := true;
      recorder_running := recorder_running self;
      output_dir := Some dir |}, σ).

(** [stop_recording]: the new state and the calls of [release]. *)
Definition stop_recording (self : MultiCameraRecorder)
  : MultiCameraRecorder * list io :=
  ({| source_names := source_names self; receivers := receivers self;
      writers := []; recording := false;
      recorder_running := recorder_running self;
      output_dir := output_dir self |},
   VideoWriter_release <$> dict_values (writers self)).

(** The layout chosen by [create_grid_display], as (rows, cols). *)
Definition grid_layout (num_cams : nat) : nat * nat :=
  if (num_cams =? 1)%nat then (1, 1)%nat
  else if (num_cams =? 2)%nat then (1, 2)%nat
  else if (num_cams <=? 4)%nat then (2, 2)%nat
  else (2, 3)%nat.

(** The recording indicator of one tile: the border is drawn on the array
    the caller handed in, the band on a copy of it, and the blend of the
    two is a new array. *)
Definition mark_recording (w h : Z) (frame : loc) (σ : heap)
  : ndarray * heap :=
  let σ := mutate (λ a, rectangle a (0, 0)%Z (w - 1, h - 1)%Z (0, 0, 255)%Z 20)
             frame σ in
  let overlay := deref σ frame in
  let overlay := rectangle overlay (0, 0)%Z (w, 100)%Z (0, 0, 180)%Z (-1) in
  (addWeighted overlay (7 # 10) (deref σ frame) (3 # 10) 0, σ).

(** The loop [for idx, (name, frame) in enumerate(frames.items())], from
    index [idx] on. *)
Fixpoint place_frames (recording : bool) (rows cols : nat)
    (w h display_w display_h : Z) (idx : nat)
    (items : list (string * option loc)) (grid : ndarray) (σ : heap)
  : ndarray * heap :=
  match items with
  | [] => (grid, σ)
  | (name, None) :: items' =>
      place_frames recording rows cols w h display_w display_h (S idx)
        items' grid σ
  | (name, Some frame) :: items' =>
      let row := (idx `div` cols)%nat in
      let col := (idx `mod` cols)%nat in
      if (rows <=? row)%nat then (grid, σ)
      else
        let '(tile, σ) :=
          if recording then mark_recording w h frame σ
          else (deref σ frame, σ) in
        let resized := resize tile (display_w, display_h) in
        let y_start := (Z.of_nat row * display_h)%Z in
        let y_end := (y_start + display_h)%Z in
        let x_start := (Z.of_nat col * display_w)%Z in
        let x_end := (x_start + display_w)%Z in
        place_frames recording rows cols w h display_w display_h (S idx)
          items' (assign_slice grid y_start y_end x_start x_end resized) σ
  end.

(** [create_grid_display]: the grid (or [None]) or the exception raised,
    and the heap afterwards.  While recording, the indicator is drawn on
    the grid last: the circle, then the text, whose font is read from the
    [cv2] module when the arguments of [putText] are evaluated. *)
Definition create_grid_display (recording : bool)
    (frames : list (string * option loc)) (σ : heap)
  : outcome (option ndarray) * heap :=
  match frames with
  | [] => (returned None, σ)
  | (_, first_frame) :: _ =>
      let '(rows, cols) := grid_layout (length frames) in
      match first_frame with
      | None => (returned None, σ)
      | Some first =>
          let '(h, w) := shape (deref σ first) in
          let display_w := (w `div` 2)%Z in
          let display_h := (h `div` 2)%Z in
          let grid :=
            np_zeros (display_h * Z.of_nat rows) (display_w * Z.of_nat cols)
              3 in
          let '(grid, σ) :=
            place_frames recording rows cols w h display_w display_h 0
              frames grid σ in
          if recording then
            let grid := circle grid (40, 40)%Z 20 (0, 0, 255)%Z (-1) in
            match cv2_font "FONT_HERSHEY_BOLD" with
            | returned font =>
                (returned
                   (Some (putText grid "RECORDING" (70, 50)%Z font 1
                            (0, 0, 255)%Z 3)), σ)
            | raised e => (raised e, σ)
            end
          else (returned (Some grid), σ)
      end
  end.

(** *** [MultiCameraRecorder.run] *)

(** The state of a run: the array heap, the recorder, the local variable
    [frame_counts], everything done to the outside world so far, and the
    exception that has left [run], if one has.  [run] catches nothing, so
    an exception raised in its loop ends it there: [main] reports it and
    returns, and the process is over. *)
Record world : Type := {
  heap_of : heap;
  recorder : MultiCameraRecorder;
  frame_counts : list (string * nat);
  trace : list io;
  uncaught : option exception
}.

(** The loop [for name, receiver in self.receivers.items()] of one
    iteration of [run]: each available frame is recorded in [frames],
    counted, and handed to its writer when there is one.  [frame_counts]
    has every receiver name as a key from the start of [run]. *)
Fixpoint poll_receivers (recording : bool)
    (writers : list (string * VideoWriter))
    (items : list (string * NDIReceiver)) (σ : heap)
    (frames : list (string * option loc)) (counts : list (string * nat))
    (out : list io)
  : heap * list (string * option loc) * list (string * nat) * list io :=
  match items with
  | [] => (σ, frames, counts, out)
  | (name, receiver) :: items' =>
      let '(frame, σ) := get_latest_frame receiver σ in
      match frame with
      | None => poll_receivers recording writers items' σ frames counts out
      | Some l =>
          let frames := dict_set name (Some l) frames in
          let counts :=
            dict_set name (S (default O (dict_get name counts))) counts in
          let out :=
            match dict_get name writers with
            | Some writer =>
                if recording then out ++ [VideoWriter_write writer (deref σ l)]
                else out
            | None => out
            end in
          poll_receivers recording writers items' σ frames counts out
      end
  end.

(** [MultiCameraRecorder.stop] *)
Definition MultiCameraRecorder_stop (self : MultiCameraRecorder)
  : MultiCameraRecorder * list io :=
  let self :=
    {| source_names := source_names self; receivers := receivers self;
       writers := writers self; recording := recording self;
       recorder_running := false; output_dir := output_dir self |} in
  let '(self, released) :=
    if recording self then stop_recording self else (self, []) in
  ({| source_names := source_names self;
      receivers := prod_map id NDIReceiver_stop <$> receivers self;
      writers := writers self; recording := recording self;
      recorder_running := recorder_running self;
      output_dir := output_dir self |}, released).

(** The statements of [run] before its loop. *)
Definition run_enter (self : MultiCameraRecorder) (σ : heap) : world :=
  {| heap_of := σ;
     recorder :=
       {| source_names := source_names self; receivers := receivers self;
          writers := writers self; recording := recording self;
          recorder_running := true; output_dir := output_dir self |};
     frame_counts := (λ name, (name, O)) <$> dict_keys (receivers self);
     trace := []; uncaught := None |}.

(** What follows [create_grid_display] in an iteration, given the grid it
    returned: the display, the key and what the key sets off. *)
Definition show_and_dispatch (key : Z) (timestamp : string)
    (self : MultiCameraRecorder) (grid : option ndarray) (σ : heap)
    (counts : list (string * nat)) (out : list io) : world :=
  let out :=
    match grid with
    | Some grid => out ++ [imshow "NDI Multi-Camera Receiver" grid]
    | None => out
    end in
  let key := Z.land key 255 in
  if (key =? ord_q)%Z then
    let '(self, released) := MultiCameraRecorder_stop self in
    {| heap_of := σ; recorder := self; frame_counts := counts;
       trace := out ++ released; uncaught := None |}
  else if (key =? ord_r)%Z then
    if recording self then
      let '(self, released) := stop_recording self in
      {| heap_of := σ; recorder := self; frame_counts := counts;
         trace := out ++ released; uncaught := None |}
    else
      let '(self, σ) := start_recording timestamp self σ in
      {| heap_of := σ; recorder := self; frame_counts := counts;
         trace := out; uncaught := None |}
  else
    {| heap_of := σ; recorder := self; frame_counts := counts;
       trace := out; uncaught := None |}.

(** One iteration of [while self.running]; [key] is what [cv2.waitKey(1)]
    returns and [timestamp] the formatted clock, should recording start.
    On [q] the loop is left and [self.stop()] follows.  An exception raised
    by [create_grid_display] leaves [run] at once: nothing is shown, no key
    is read and [self.stop()] is not reached. *)
Definition loop_iteration (key : Z) (timestamp : string) (s : world)
  : world :=
  let self := recorder s in
  if negb (recorder_running self) || bool_decide (is_Some (uncaught s))
  then s
  else
    let '(σ, frames, counts, out) :=
      poll_receivers (recording self) (writers self) (receivers self)
        (heap_of s) [] (frame_counts s) (trace s) in
    match create_grid_display (recording self) frames σ with
    | (returned grid, σ) =>
        show_and_dispatch key timestamp self grid σ counts out
    | (raised e, σ) =>
        {| heap_of := σ; recorder := self; frame_counts := counts;
           trace := out; uncaught := Some e |}
    end.

(** What can happen while [run] executes: the receive thread of the source
    registered under [name] stores a frame, or the main thread goes once
    round its loop.  Every access to a register is made under its lock, so
    a store falls before or after a poll, never inside one; here stores
    fall between two iterations.  The receive threads are daemon threads:
    they store nothing once the process is over. *)
Inductive event : Type :=
| video_frame (name : string) (v_data_id : nat) (yres xres : Z)
| iteration (key : Z) (timestamp : string).

Definition store_frame (name : string) (v_data : ndarray) (s : world)
  : world :=
  let self := recorder s in
  match dict_get name (receivers self) with
  | Some receiver =>
      if running receiver && negb (bool_decide (is_Some (uncaught s))) then
        let '(receiver, σ) := receive_video v_data receiver (heap_of s) in
        {| heap_of := σ;
           recorder :=
             {| source_names := source_names self;
                receivers := dict_set name receiver (receivers self);
                writers := writers self; recording := recording self;
                recorder_running := recorder_running self;
                output_dir := output_dir self |};
           frame_counts := frame_counts s; trace := trace s;
           uncaught := uncaught s |}
      else s
  | None => s
  end.

Definition step (e : event) (s : world) : world :=
  match e with
  | video_frame name id yres xres =>
      store_frame name (ndi_video_data id yres xres) s
  | iteration key timestamp => loop_iteration key timestamp s
  end.

Definition exec (events : list event) (s : world) : world :=
  fold_left (λ s e, step e s) events s.

(** [main] from the call of [connect_sources] on, with an empty heap: the
    state in which the loop of [run] starts, if any source connected. *)
Definition boot (ndi : nat → NDIlib) (source_names : list string)
  : option world :=
  let '(ok, self) :=
    connect_sources ndi (MultiCameraRecorder_init source_names) in
  if ok then Some (run_enter self ∅) else None.

End ndi_receiver.

(** ** The OSC timecode listener

    [class TimecodeReceiver] is declared twice, in src/ndi_transmitter.py
    and in src/local_saver.py, with the same fields; the two differ in
    [timecode_handler] and in [start]. *)

Module Osc.

(** [osc_server.ThreadingOSCUDPServer]: the address it is bound to, the
    address pattern its dispatcher maps to the handler, the multicast
    groups its socket joined, whether [serve_forever] is looping and
    whether the socket is still open. *)
Record OSCUDPServer : Type := {
  server_address : string * Z;
  mapped_address : string;
  memberships : list string;
  serving : bool;
  socket_open : bool
}.

(** [threading.Thread] *)
Record Thread : Type := { daemon : bool; started : bool; joined : bool }.

(** [server.shutdown()]: the [serve_forever] loop is told to stop and has
    stopped when the call returns; the socket is left as it is. *)
Definition shutdown (server : OSCUDPServer) : OSCUDPServer :=
  {| server_address := server_address server;
     mapped_address := mapped_address server;
     memberships := memberships server; serving := false;
     socket_open := socket_open server |}.

(** The attributes [server] and [thread] exist only once [start] has run:
    [None] stands for a missing attribute.  [timecode_lock] tells whether
    the lock is held. *)
Record TimecodeReceiver : Type := {
  port : Z;
  latest_timecode : string;
  timecode_lock : bool;
  running : bool;
  measured_offset : Q;
  server : option OSCUDPServer;
  thread : option Thread
}.

Definition TimecodeReceiver_init (port : Z) : TimecodeReceiver :=
  {| port := port; latest_timecode := "00:00:00:00:0";
     timecode_lock := false; running := false; measured_offset := 0;
     server := None; thread := None |}.

Definition set_latest_timecode (value : string) (self : TimecodeReceiver)
  : TimecodeReceiver :=
  {| port := port self; latest_timecode := value;
     timecode_lock := timecode_lock self; running := running self;
     measured_offset := measured_offset self; server := server self;
     thread := thread self |}.

Definition set_timecode_lock (held : bool) (self : TimecodeReceiver)
  : TimecodeReceiver :=
  {| port := port self; latest_timecode := latest_timecode self;
     timecode_lock := held; running := running self;
     measured_offset := measured_offset self; server := server self;
     thread := thread self |}.

(** [get_timecode], run without interruption. *)
Definition get_timecode (self : TimecodeReceiver) : string :=
  latest_timecode self.

(** [start], given the host and the address pattern of the file at hand
    and the multicast groups it joins. *)
Definition start_on (host : string) (address : string)
    (groups : list string) (self : TimecodeReceiver) : TimecodeReceiver :=
  {| port := port self; latest_timecode := latest_timecode self;
     timecode_lock := timecode_lock self; running := true;
     measured_offset := measured_offset self;
     server :=
       Some {| server_address := (host, port self);
               mapped_address := address; memberships := groups;
               serving := true; socket_open := true |};
     thread := Some {| daemon := true; started := true; joined := false |} |}.

(** [stop]: the same text in both files. *)
Definition stop (self : TimecodeReceiver) : TimecodeReceiver :=
  {| port := port self; latest_timecode := latest_timecode self;
     timecode_lock := timecode_lock self; running := false;
     measured_offset := measured_offset self;
     server := shutdown <$> server self;
     thread := thread self |}.

(** *** Handler and reader as concurrent threads

    The server starts a thread per message, and [get_timecode] is called
    from the capture loop, so calls of the two methods overlap.  A call is
    at one of four points: not yet past its first statement, holding the
    lock, holding the lock with its statement done, or returned.  A handler
    called without arguments returns at once; otherwise it takes the lock
    and the assignment in its body is its step under the lock. *)
Section threads.
Context {A : Type}.
(** [timecode_handler] of the file at hand *)
Variable timecode_handler :
  TimecodeReceiver → string → list A → TimecodeReceiver.

Inductive call : Type :=
| call_timecode_handler (address : string) (args : list A)
| call_get_timecode.

Inductive pc : Type :=
| called
| holding
| releasing (ret : option string)
| returned (ret : option string).

Record thread_state : Type := { t_call : call; t_pc : pc }.

(** What an observer of the register sees, in the order it happens. *)
Inductive obs : Type :=
| obs_store (tid : nat) (value : string)
| obs_return (tid : nat) (value : string).

Definition at_pc (t : thread_state) (p : pc) : thread_state :=
  {| t_call := t_call t; t_pc := p |}.

(** One step of thread [tid]; [None] when it is blocked on the lock or has
    returned. *)
Definition thread_step (tid : nat) (self : TimecodeReceiver)
    (t : thread_state) : option (TimecodeReceiver * thread_state * list obs) :=
  match t_pc t, t_call t with
  | called, call_timecode_handler _ [] =>
      Some (self, at_pc t (returned None), [])
  | called, _ =>
      if timecode_lock self then None
      else Some (set_timecode_lock true self, at_pc t holding, [])
  | holding, call_timecode_handler address args =>
      let self := timecode_handler self address args in
      Some (self, at_pc t (releasing None),
            [obs_store tid (latest_timecode self)])
  | holding, call_get_timecode =>
      Some (self, at_pc t (releasing (Some (latest_timecode self))), [])
  | releasing ret, _ =>
      Some (set_timecode_lock false self, at_pc t (returned ret),
            match ret with Some v => [obs_return tid v] | None => [] end)
  | returned _, _ => None
  end.

Definition config : Type := TimecodeReceiver * list thread_state * list obs.

(** The scheduler picks thread [tid]; nothing happens if it cannot move. *)
Definition sched_step (c : config) (tid : nat) : config :=
  let '(self, pool, log) := c in
  match pool !! tid with
  | Some t =>
      match thread_step tid self t with
      | Some (self', t', o) => (self', <[tid := t']> pool, log ++ o)
      | None => c
      end
  | None => c
  end.

Definition run_schedule (schedule : list nat) (c : config) : config :=
  fold_left sched_step schedule c.

Definition spawn (calls : list call) : list thread_state :=
  (λ c, {| t_call := c; t_pc := called |}) <$> calls.

End threads.

End Osc.

(** ** src/ndi_transmitter.py: class TimecodeReceiver *)

Module ndi_transmitter.
Import Py Osc.

(** [timecode_handler(self, address, *args)] *)
Definition timecode_handler `{Format A} (self : TimecodeReceiver)
    (address : string) (args : list A) : TimecodeReceiver :=
  match args with
  | [] => self
  | arg0 :: _ => set_latest_timecode (str arg0) self
  end.

Definition start (self : TimecodeReceiver) : TimecodeReceiver :=
  start_on "0.0.0.0" "/timecode" ["239.255.0.1"] self.

Definition stop (self : TimecodeReceiver) : TimecodeReceiver := Osc.stop self.

End ndi_transmitter.

(** ** src/local_saver.py: class TimecodeReceiver *)

Module local_saver.
Import Py Osc.

(** [timecode_handler(self, address, *args)] *)
Definition timecode_handler `{Format A} (self : TimecodeReceiver)
    (address : string) (args : list A) : TimecodeReceiver :=
  match args with
  | [] => self
  | _ :: _ => set_latest_timecode (str_tuple (take 5 args)) self
  end.

(** [ip] is [socket.gethostbyname(socket.gethostname())]. *)
Definition start (ip : string) (self : TimecodeReceiver) : TimecodeReceiver :=
  start_on ip "/asil/clock" [] self.

Definition stop (self : TimecodeReceiver) : TimecodeReceiver := Osc.stop self.

End local_saver.

(** ** Vocabulary of the statements *)

Module Spec.
Import Py Cv ndi_receiver.

(** The border drawn on a tile's array while recording. *)
Definition border (w h : Z) (a : ndarray) : ndarray :=
  rectangle a (0, 0)%Z (w - 1, h - 1)%Z (0, 0, 255)%Z 20.

(** The arrays named by the present entries of a frames mapping. *)
Definition arrays_of (items : list (string * option loc)) : list loc :=
  omap snd items.

(** Seven sources, each with a frame of its own: one more than the
    largest grid holds. *)
Definition seven_frames : list (string * option loc) :=
  [("cam1", Some 0%nat); ("cam2", Some 1%nat); ("cam3", Some 2%nat);
   ("cam4", Some 3%nat); ("cam5", Some 4%nat); ("cam6", Some 5%nat);
   ("cam7", Some 6%nat)].

Definition seven_heap : heap :=
  list_to_map
    ((λ i : nat, (i, cvtColor (ndi_video_data i 720 1280) "COLOR_BGRA2BGR"))
       <$> seq 0 7).

(** Whether the attempt for the [j]-th requested name connects. *)
Definition connected (ndi : nat → NDIlib) (j : nat) (name : string) : bool :=
  (start (ndi j) (NDIReceiver_init name)).1.

(** A library in which a source of the given name shows up at the third
    poll of the source list, and one in which no source ever shows up. *)
Definition ndi_found_at_third_poll (name : string) : NDIlib :=
  {| initialize := true; find_create_v2 := true;
     find_get_current_sources := λ k,
       if (k <? 2)%nat then []
       else [{| ndi_name := name; url_address := "192.168.0.10:5961" |}];
     recv_create_v3 := true |}.

Definition ndi_no_source : NDIlib :=
  {| initialize := true; find_create_v2 := true;
     find_get_current_sources := λ _, []; recv_create_v3 := true |}.

(** What the registry maps a name to once [connect_sources] is over. *)
Definition started (r : NDIReceiver) (name : string) : Prop :=
  source_name r = name ∧ running r = true ∧ is_Some (ndi_recv r) ∧
  latest_frame r = None.

(** An iteration whose key toggles recording. *)
Definition is_toggle (e : event) : bool :=
  match e with
  | iteration key _ => (Z.land key 255 =? ord_r)%Z
  | video_frame _ _ _ _ => false
  end.

(** A frame as [receive_loop] stores it: the library's pixel data, colour
    converted, and nothing else. *)
Definition as_received (f : ndarray) : Prop :=
  ∃ id yres xres,
    f = cvtColor (ndi_video_data id yres xres) "COLOR_BGRA2BGR".

(** Every register of the recorder points to a live array that is as
    received. *)
Definition registers_as_received (s : world) : Prop :=
  ∀ name r l,
    (name, r) ∈ receivers (recorder s) → latest_frame r = Some l →
    ∃ a, heap_of s !! l = Some a ∧ as_received a.

(** Every frame handed to a writer so far is as received. *)
Definition writes_as_received (s : world) : Prop :=
  ∀ w f, VideoWriter_write w f ∈ trace s → as_received f.

(** The state of a run right after [start_recording] was called in a
    state with recorder [self], heap [σ], counters [counts] and trace
    [tr]. *)
Definition after_start_recording (timestamp : string)
    (self : MultiCameraRecorder) (σ : heap) (counts : list (string * nat))
    (tr : list io) : world :=
  {| heap_of := (start_recording timestamp self σ).2;
     recorder := (start_recording timestamp self σ).1;
     frame_counts := counts; trace := tr; uncaught := None |}.

(** One source, found at the third poll, and the run that starts with it. *)
Definition one_camera : world :=
  run_enter
    (connect_sources (λ _, ndi_found_at_third_poll "cam1")
       (MultiCameraRecorder_init ["cam1"])).2 ∅.

(** What a run keeps true of the recorder: while recording is off there
    are no writers, and a writer is always filed under the name of a
    registered receiver. *)
Definition writers_in_order (s : world) : Prop :=
  (recording (recorder s) = false → writers (recorder s) = []) ∧
  (∀ name, name ∈ dict_keys (writers (recorder s)) →
           name ∈ dict_keys (receivers (recorder s))).




(** The writes an iteration owes: in the order of the registry, for every
    receiver that holds a frame and has a writer, the contents of its
    register, while recording is on. *)
Fixpoint due_writes (recording : bool) (writers : list (string * VideoWriter))
    (items : list (string * NDIReceiver)) (σ : heap) : list io :=
  match items with
  | [] => []
  | (name, r) :: items' =>
      match latest_frame r, dict_get name writers with
      | Some l, Some writer =>
          if recording then [VideoWriter_write writer (deref σ l)] else []
      | _, _ => []
      end ++ due_writes recording writers items' σ
  end.

(** The state in which [run] is left when [create_grid_display] raises. *)
Definition crashed (e : exception) (self : MultiCameraRecorder) (σ : heap)
    (counts : list (string * nat)) (out : list io) : world :=
  {| heap_of := σ; recorder := self; frame_counts := counts; trace := out;
     uncaught := Some e |}.

(** One source that has delivered a frame, with recording just started:
    the writer of the source is open. *)
Definition one_camera_recording : world :=
  exec [video_frame "cam1" 1 720 1280; iteration 114 "20250101_120000"]
    one_camera.

Definition cam1_writer : VideoWriter :=
  {| output_path := "recordings/20250101_120000/cam1.mp4"; fourcc := "mp4v";
     fps := 60; frameSize := (1280, 720)%Z |}.


End Spec.

Module TimecodeSpec.
Import Py Osc.

(** The value of [latest_timecode] before any message. *)
Definition sentinel : string := "00:00:00:00:0".

(** The socket of the receiver is closed and its thread joined. *)
Definition unbound_and_joined (self : TimecodeReceiver) : Prop :=
  (socket_open <$> server self) = Some false ∧
  (joined <$> thread self) = Some true.

(** [v] was stored at some point of the log, or before position [k]. *)
Definition stored_in (log : list obs) (v : string) : Prop :=
  ∃ k j, log !! k = Some (obs_store j v).

Definition stored_before (log : list obs) (k : nat) (v : string) : Prop :=
  ∃ k' j, (k' < k)%nat ∧ log !! k' = Some (obs_store j v).

Section consistency.
Context {A : Type}.
Variable timecode_handler :
  TimecodeReceiver → string → list A → TimecodeReceiver.

(** What holds of every configuration reached from the threads of [calls]
    and a new receiver. *)
Definition consistent (calls : list (@call A)) (c : @config A) : Prop :=
  let '(self, pool, log) := c in
  t_call <$> pool = calls ∧
  (latest_timecode self = sentinel ∨ stored_in log (latest_timecode self)) ∧
  (∀ i t r, pool !! i = Some t → t_pc t = releasing (Some r) →
            r = sentinel ∨ stored_in log r) ∧
  (∀ k i r, log !! k = Some (obs_return i r) →
            r = sentinel ∨ stored_before log k r) ∧
  (∀ i t address, pool !! i = Some t →
                  t_call t = call_timecode_handler address [] →
                  t_pc t = called ∨ t_pc t = returned None) ∧
  (∀ k j v, log !! k = Some (obs_store j v) →
            ∃ address args self0,
              calls !! j = Some (call_timecode_handler address args) ∧
              args ≠ [] ∧
              v = latest_timecode (timecode_handler self0 address args)) ∧
  (∀ i t r, pool !! i = Some t → t_pc t = returned (Some r) →
            ∃ k, log !! k = Some (obs_return i r)) ∧
  (∀ i t r, pool !! i = Some t →
            t_pc t = releasing (Some r) ∨ t_pc t = returned (Some r) →
            t_call t = call_get_timecode) ∧
  (∀ k i r, log !! k = Some (obs_return i r) →
            calls !! i = Some call_get_timecode).

End consistency.

(** The value the register holds after the stores of a log. *)
Definition current (log : list obs) : string :=
  foldl (λ v o, match o with obs_store _ v' => v' | obs_return _ _ => v end)
    sentinel log.

Section critical.
Context {A : Type}.

(** The thread is between taking the lock and giving it back. *)
Definition in_critical (t : @thread_state A) : Prop :=
  t_pc t = holding ∨ ∃ ret, t_pc t = releasing ret.

(** The steps a call still has to take. *)
Definition steps_left (t : @thread_state A) : nat :=
  match t_pc t with
  | called => 3
  | holding => 2
  | releasing _ => 1
  | returned _ => 0
  end.

(** What the lock guarantees of every configuration reached. *)
Definition exclusive (c : @config A) : Prop :=
  let '(self, pool, log) := c in
  (∀ i j ti tj, pool !! i = Some ti → pool !! j = Some tj →
                in_critical ti → in_critical tj → i = j) ∧
  (timecode_lock self = true ↔ ∃ i t, pool !! i = Some t ∧ in_critical t) ∧
  latest_timecode self = current log ∧
  (∀ i t r, pool !! i = Some t → t_pc t = releasing (Some r) →
            r = current log) ∧
  (∀ k i r, log !! k = Some (obs_return i r) → r = current (take k log)).

End critical.

(** Two messages and two readers, and an order in which the first reader
    runs between the two handlers and the second after both. *)
Definition four_calls : list (@call Z) :=
  [call_timecode_handler "/timecode" [10%Z; 20%Z]; call_get_timecode;
   call_timecode_handler "/timecode" [30%Z]; call_get_timecode].

Definition four_calls_schedule : list nat :=
  [0; 1; 0; 0; 1; 2; 1; 1; 2; 2; 2; 3; 3; 3]%nat.

End TimecodeSpec.

(* ===================================================================== *)
(** * Part II: lemmas and theorems                                        *)
(* ===================================================================== *)

(** ** Dictionaries *)

Section dict_facts.
Import Py.
Context {V : Type}.
Implicit Types (d : list (string * V)) (k : string) (v : V).

Lemma dict_get_set_eq d k v : dict_get k (dict_set k v d) = Some v.
Proof.
  induction d as [|[k' v'] d IH]; simpl.
  - by rewrite decide_True.
  - destruct (decide (k' = k)) as [->|Hne]; simpl.
    + by rewrite decide_True.
    + by rewrite decide_False.
Qed.

Lemma dict_get_set_ne d k k' v :
  k ≠ k' → dict_get k' (dict_set k v d) = dict_get k' d.
Proof.
  intros Hne. induction d as [|[k0 v0] d IH]; simpl.
  - by rewrite decide_False.
  - destruct (decide (k0 = k)) as [->|Hne0]; simpl.
    + by rewrite !decide_False.
    + destruct (decide (k0 = k')); [done | apply IH].
Qed.


Lemma dict_get_is_Some d k : is_Some (dict_get k d) ↔ k ∈ dict_keys d.
Proof.
  unfold dict_keys. induction d as [|[k' v'] d IH]; simpl.
  - split; [by intros [? ?] | by intros ?%elem_of_nil].
  - destruct (decide (k' = k)) as [->|Hne].
    + split; [intros _; apply list_elem_of_here | eauto].
    + rewrite IH, elem_of_cons. naive_solver.
Qed.

Lemma dict_keys_set d k v :
  ∀ k', k' ∈ dict_keys (dict_set k v d) ↔ k' = k ∨ k' ∈ dict_keys d.
Proof.
  intros k'. rewrite <- !dict_get_is_Some.
  destruct (decide (k = k')) as [->|Hne].
  - rewrite dict_get_set_eq. naive_solver.
  - rewrite dict_get_set_ne by done. naive_solver.
Qed.


End dict_facts.

(** ** The array heap *)

Section heap_facts.
Import Cv.
Implicit Types (σ : heap) (l : loc) (a : ndarray).

Lemma alloc_fresh a σ : σ !! (alloc a σ).1 = None.
Proof.
  unfold alloc; simpl. apply not_elem_of_dom, is_fresh.
Qed.

Lemma alloc_lookup a σ : (alloc a σ).2 !! (alloc a σ).1 = Some a.
Proof. unfold alloc; simpl. apply lookup_insert_eq. Qed.

Lemma alloc_old a σ l : is_Some (σ !! l) → (alloc a σ).2 !! l = σ !! l.
Proof.
  intros Hl. unfold alloc; simpl. apply lookup_insert_ne.
  intros <-. apply (is_fresh (dom σ)). by apply elem_of_dom.
Qed.

Lemma mutate_lookup_eq f l σ : mutate f l σ !! l = Some (f (deref σ l)).
Proof. unfold mutate. apply lookup_insert_eq. Qed.

Lemma mutate_lookup_ne f l l' σ : l ≠ l' → mutate f l σ !! l' = σ !! l'.
Proof. intros. unfold mutate. by apply lookup_insert_ne. Qed.


End heap_facts.

(** ** The grid of [create_grid_display] *)

Section grid.
Import Py Cv ndi_receiver Spec.
Implicit Types (σ : heap) (frames items : list (string * option loc)).







(** The heap after the loop, when not recording: untouched. *)
Lemma place_frames_idle rows cols w h dw dh items :
  ∀ idx grid σ,
    (place_frames false rows cols w h dw dh idx items grid σ).2 = σ.
Proof.
  induction items as [|[name [frame|]] items IH]; intros idx grid σ; simpl.
  - done.
  - destruct (rows <=? idx `div` cols)%nat; [done | apply IH].
  - apply IH.
Qed.

Lemma mark_recording_heap w h frame σ :
  (mark_recording w h frame σ).2 = mutate (border w h) frame σ.
Proof. done. Qed.


(** While recording, the loop changes exactly the arrays it visits. *)
Lemma place_frames_untouched rows cols w h dw dh items l :
  ∀ idx grid σ,
    l ∉ arrays_of items →
    (place_frames true rows cols w h dw dh idx items grid σ).2 !! l = σ !! l.
Proof.
  induction items as [|[name [frame|]] items IH]; intros idx grid σ Hl; simpl.
  - done.
  - destruct (rows <=? idx `div` cols)%nat; [done |].
    unfold arrays_of in Hl; simpl in Hl. apply not_elem_of_cons in Hl as [Hne Hl].
    rewrite IH by done. by apply mutate_lookup_ne.
  - apply IH. by unfold arrays_of in *.
Qed.




End grid.

Section grid_claims.
Import Py Cv ndi_receiver Spec.
Implicit Types (σ : heap) (frames items : list (string * option loc)).


(** The heap after [create_grid_display]: that of its loop. *)
Lemma create_grid_display_heap recording frames σ :
  (create_grid_display recording frames σ).2 =
  match frames with
  | (_, Some first) :: _ =>
      let rows := (grid_layout (length frames)).1 in
      let cols := (grid_layout (length frames)).2 in
      let h := (shape (deref σ first)).1 in
      let w := (shape (deref σ first)).2 in
      (place_frames recording rows cols w h (w `div` 2)%Z (h `div` 2)%Z 0
         frames
         (np_zeros ((h `div` 2) * Z.of_nat rows) ((w `div` 2) * Z.of_nat cols)
            3) σ).2
  | _ => σ
  end.
Proof.
  destruct frames as [|[name [first|]] rest]; [done | |].
  - unfold create_grid_display.
    destruct (grid_layout _) as [rows cols].
    destruct (shape (deref σ first)) as [h w].
    cbn [fst snd].
    destruct (place_frames _ _ _ _ _ _ _ _ _ _ _) as [grid σ'].
    by destruct recording.
  - simpl. by destruct (grid_layout _).
Qed.

Lemma create_grid_display_untouched recording frames σ l :
  l ∉ arrays_of frames →
  (create_grid_display recording frames σ).2 !! l = σ !! l.
Proof.
  intros Hl. rewrite create_grid_display_heap.
  destruct frames as [|[name [first|]] rest]; [done | | done].
  destruct recording.
  - by apply place_frames_untouched.
  - by rewrite place_frames_idle.
Qed.





(** C8: the code departs from the claim. With seven frames and recording
    on, the seventh frame is skipped as the claim says (its array is left
    as it was, while the first has got its border), but the call does not
    return a grid: it raises [AttributeError], because the font of the
    indicator text is read from [cv2] under a name the module does not
    have. *)
Theorem create_grid_display_raises_while_recording :
  ∃ σ',
    create_grid_display true seven_frames seven_heap
    = (raised (AttributeError "cv2" "FONT_HERSHEY_BOLD"), σ') ∧
    σ' !! 6%nat = seven_heap !! 6%nat ∧
    σ' !! 0%nat
    = Some (rectangle (deref seven_heap 0%nat) (0, 0)%Z (1279, 719)%Z
              (0, 0, 255)%Z 20).
Proof. eexists. split; [reflexivity |]. split; reflexivity. Qed.







End grid_claims.

(** ** The frame register *)

Section register.
Import Py Cv ndi_receiver Spec.
Implicit Types (σ : heap) (self : NDIReceiver).

Lemma get_latest_frame_absent self σ :
  latest_frame self = None → get_latest_frame self σ = (None, σ).
Proof. intros Hl. unfold get_latest_frame. by rewrite Hl. Qed.

Lemma get_latest_frame_present self σ l :
  latest_frame self = Some l →
  get_latest_frame self σ = (Some (alloc (deref σ l) σ).1, (alloc (deref σ l) σ).2).
Proof. intros Hl. unfold get_latest_frame. by rewrite Hl. Qed.

(** A poll only adds an array to the heap. *)
Lemma get_latest_frame_extends self σ l :
  is_Some (σ !! l) → (get_latest_frame self σ).2 !! l = σ !! l.
Proof.
  intros Hl. unfold get_latest_frame.
  destruct (latest_frame self) as [l0|]; [|done].
  simpl. by apply alloc_old.
Qed.

(** C9. [get_latest_frame] returns the absent value while the register is
    empty. Otherwise it returns a new array with the contents of the
    register's array: an array that did not exist before the call, hence
    neither the register's nor one returned earlier. Whatever is then done
    in place to the returned array, the register's array and every array
    that existed before keep their contents, and a further call returns
    yet another array, again with the register's contents. *)
Theorem get_latest_frame_independent_copy (self : NDIReceiver) (σ : heap) :
  match latest_frame self with
  | None => get_latest_frame self σ = (None, σ)
  | Some l =>
      is_Some (σ !! l) →
      ∃ copy σ',
        get_latest_frame self σ = (Some copy, σ') ∧
        σ !! copy = None ∧ copy ≠ l ∧
        σ' !! copy = σ !! l ∧
        (∀ l', is_Some (σ !! l') → σ' !! l' = σ !! l') ∧
        ∀ f,
          let σ'' := mutate f copy σ' in
          σ'' !! l = σ !! l ∧
          (∀ l', is_Some (σ !! l') → σ'' !! l' = σ !! l') ∧
          ∃ copy2 σ2,
            get_latest_frame self σ'' = (Some copy2, σ2) ∧
            copy2 ≠ copy ∧ copy2 ≠ l ∧
            σ2 !! copy2 = σ !! l ∧
            σ2 !! copy = Some (f (deref σ l)) ∧
            ∀ g, mutate g copy2 σ2 !! copy = σ2 !! copy ∧
                 mutate g copy2 σ2 !! l = σ !! l
  end.
Proof.
  destruct (latest_frame self) as [l|] eqn:Hreg;
    [|by apply get_latest_frame_absent].
  intros [a Ha].
  rewrite (get_latest_frame_present self σ l Hreg).
  set (copy := (alloc (deref σ l) σ).1). set (σ' := (alloc (deref σ l) σ).2).
  assert (σ !! copy = None) as Hfresh by apply alloc_fresh.
  assert (copy ≠ l) as Hne by (intros ->; congruence).
  assert (deref σ l = a) as Hda by (unfold deref; by rewrite Ha).
  assert (σ' !! copy = Some a) as Hcopy.
  { subst copy σ'. by rewrite alloc_lookup, Hda. }
  assert (∀ l', is_Some (σ !! l') → σ' !! l' = σ !! l') as Hold.
  { intros l' Hl'. by apply alloc_old. }
  exists copy, σ'.
  split; [done |]. split; [done |]. split; [done |].
  split; [congruence |]. split; [done |].
  intros f σ''.
  assert (∀ l', is_Some (σ !! l') → σ'' !! l' = σ !! l') as Hold'.
  { intros l' Hl'. subst σ''. rewrite mutate_lookup_ne; [by apply Hold |].
    intros ->. rewrite Hfresh in Hl'. by destruct Hl'. }
  assert (σ'' !! l = Some a) as Hl'' by (rewrite Hold'; eauto).
  assert (σ'' !! copy = Some (f a)) as Hc''.
  { subst σ''. rewrite mutate_lookup_eq. unfold deref. by rewrite Hcopy. }
  split; [congruence |]. split; [done |].
  rewrite (get_latest_frame_present self σ'' l Hreg).
  set (copy2 := (alloc (deref σ'' l) σ'').1).
  set (σ2 := (alloc (deref σ'' l) σ'').2).
  assert (σ'' !! copy2 = None) as Hfresh2 by apply alloc_fresh.
  assert (copy2 ≠ copy) as Hne2 by (intros Heq; rewrite Heq in Hfresh2; congruence).
  assert (copy2 ≠ l) as Hne2' by (intros Heq; rewrite Heq in Hfresh2; congruence).
  assert (σ2 !! copy = Some (f a)) as Hc2.
  { subst σ2. rewrite alloc_old; [done | by rewrite Hc''; eauto]. }
  assert (σ2 !! l = Some a) as Hl2.
  { subst σ2. rewrite alloc_old; [done | by rewrite Hl''; eauto]. }
  exists copy2, σ2.
  split; [done |]. split; [done |]. split; [done |].
  split.
  { subst copy2 σ2. rewrite alloc_lookup. unfold deref. by rewrite Hl'', Ha. }
  split; [by rewrite Hc2, Hda |].
  intros g. split.
  - by apply mutate_lookup_ne.
  - rewrite mutate_lookup_ne by done. congruence.
Qed.

Lemma get_latest_frame_independent_copy_witness :
  let self :=
    {| source_name := "cam1"; running := true; ndi_recv := None;
       latest_frame := Some 0%nat; thread := true |} in
  is_Some (seven_heap !! 0%nat) ∧
  ∃ copy σ', get_latest_frame self seven_heap = (Some copy, σ') ∧
             seven_heap !! copy = None.
Proof.
  intros self.
  assert (is_Some (seven_heap !! 0%nat)) as Hlive by (vm_compute; eauto).
  split; [exact Hlive |].
  destruct (get_latest_frame_independent_copy self seven_heap Hlive)
    as (copy & σ' & Hget & Hfresh & _).
  exists copy, σ'. split; [exact Hget | exact Hfresh].
Defined.

End register.

(** ** Connecting to the sources *)

Section connecting.
Import Py Cv ndi_receiver Spec.
Implicit Types (ndi : NDIlib) (self : NDIReceiver).

Lemma wait_for_source_polls name ndi attempts :
  ∀ k sources,
    (k ≤ (wait_for_source name ndi attempts k sources).2 ≤ k + attempts)%nat.
Proof.
  induction attempts as [|attempts IH]; intros k sources; simpl; [lia |].
  destruct (existsb _ _); simpl; [lia |].
  specialize (IH (S k) (find_get_current_sources ndi k)). lia.
Qed.

(** If no poll of the window shows the name, the list the loop ends with
    does not show it either. *)
Lemma wait_for_source_missing name ndi attempts :
  ∀ k sources,
    existsb (is_named name) sources = false →
    (∀ j, (k ≤ j < k + attempts)%nat →
          existsb (is_named name) (find_get_current_sources ndi j) = false) →
    existsb (is_named name) (wait_for_source name ndi attempts k sources).1
    = false.
Proof.
  induction attempts as [|attempts IH]; intros k sources Hs Hno; simpl;
    [done |].
  rewrite (Hno k) by lia.
  apply IH; [apply Hno; lia |]. intros j Hj. apply Hno. lia.
Qed.

Lemma find_existsb_false {A} (p : A → bool) (l : list A) :
  existsb p l = false → find p l = None.
Proof.
  induction l as [|x l IH]; simpl; [done |].
  destruct (p x); simpl; [done | apply IH].
Qed.

Lemma connect_polls ndi self : ((connect ndi self).2 ≤ 20)%nat.
Proof.
  unfold connect.
  destruct (initialize ndi); cbn [negb]; [|simpl; lia].
  destruct (find_create_v2 ndi); cbn [negb]; [|simpl; lia].
  pose proof (wait_for_source_polls (source_name self) ndi 20 0 []) as Hp.
  destruct (wait_for_source _ _ _ _ _) as [sources polls]; simpl in Hp.
  destruct (find _ _); [destruct (recv_create_v3 ndi) |]; simpl; lia.
Qed.

Lemma connect_not_found ndi self :
  (∀ j, (j < 20)%nat →
        existsb (is_named (source_name self)) (find_get_current_sources ndi j)
        = false) →
  (connect ndi self).1.1 = false.
Proof.
  intros Hno. unfold connect.
  destruct (initialize ndi); cbn [negb]; [|done].
  destruct (find_create_v2 ndi); cbn [negb]; [|done].
  pose proof (wait_for_source_missing (source_name self) ndi 20 0 [] eq_refl)
    as Hmiss.
  destruct (wait_for_source _ _ _ _ _) as [sources polls]; simpl in Hmiss.
  rewrite find_existsb_false; [done |].
  apply Hmiss. intros j Hj. apply Hno. lia.
Qed.

Lemma start_connect ndi self : (start ndi self).1 = (connect ndi self).1.1.
Proof.
  unfold start. destruct (connect ndi self) as [[ok self'] polls]; simpl.
  by destruct ok.
Qed.

(** A receiver that started is running, holds a receive instance and has
    kept its name. *)
Lemma start_ok ndi self :
  (start ndi self).1 = true →
  source_name (start ndi self).2 = source_name self ∧
  running (start ndi self).2 = true ∧
  is_Some (ndi_recv (start ndi self).2) ∧
  latest_frame (start ndi self).2 = latest_frame self.
Proof.
  unfold start, connect.
  destruct (initialize ndi); cbn [negb]; [|done].
  destruct (find_create_v2 ndi); cbn [negb]; [|done].
  destruct (wait_for_source _ _ _ _ _) as [sources polls].
  destruct (find _ _); [destruct (recv_create_v3 ndi) |]; simpl; done.
Qed.

Lemma connect_each_keys (ndi : nat → NDIlib) names :
  ∀ i receivers name,
    name ∈ dict_keys (connect_each ndi i names receivers) ↔
    name ∈ dict_keys receivers ∨
    ∃ j, names !! j = Some name ∧ connected ndi (i + j) name = true.
Proof.
  induction names as [|name0 names IH]; intros i receivers name; simpl.
  - split; [by left | intros [? | (j & Hj & _)]; done].
  - unfold connected in *.
    destruct (start (ndi i) (NDIReceiver_init name0)) as [ok receiver] eqn:Hs.
    rewrite IH. split.
    + intros [Hin | (j & Hj & Hok)].
      * destruct ok.
        -- apply dict_keys_set in Hin as [-> | Hin]; [|by left].
           right. exists 0%nat. rewrite Nat.add_0_r, Hs. done.
        -- by left.
      * right. exists (S j). split; [done |].
        by replace (i + S j)%nat with (S i + j)%nat by lia.
    + intros [Hin | (j & Hj & Hok)].
      * left. destruct ok; [|done]. apply dict_keys_set. by right.
      * destruct j as [|j]; simpl in Hj.
        -- injection Hj as ->. rewrite Nat.add_0_r, Hs in Hok.
           simpl in Hok. subst ok. left. apply dict_keys_set. by left.
        -- right. exists j. split; [done |].
           by replace (S i + j)%nat with (i + S j)%nat by lia.
Qed.

Lemma connect_each_values (ndi : nat → NDIlib) names :
  ∀ i receivers,
    (∀ name r, dict_get name receivers = Some r → started r name) →
    ∀ name r,
      dict_get name (connect_each ndi i names receivers) = Some r →
      started r name.
Proof.
  induction names as [|name0 names IH]; intros i receivers Hall; simpl;
    [done |].
  destruct (start (ndi i) (NDIReceiver_init name0)) as [ok receiver] eqn:Hs.
  apply IH. destruct ok; [|done].
  intros name r. destruct (decide (name0 = name)) as [<-|Hne].
  - rewrite dict_get_set_eq. intros [= <-].
    pose proof (start_ok (ndi i) (NDIReceiver_init name0)) as Hok.
    rewrite Hs in Hok. simpl in Hok. unfold started. naive_solver.
  - rewrite dict_get_set_ne by done. apply Hall.
Qed.

(** C6. From a new recorder, [connect_sources] returns [True] exactly when
    the attempt for at least one requested name connects; the registry
    then holds exactly the names for which an attempt connected, each
    mapped to a running receiver of that name; no attempt polls the source
    list more than 20 times; and an attempt whose 20 polls never show the
    name fails, which only leaves that name out. *)
Theorem connect_sources_registry (ndi : nat → NDIlib)
    (names : list string) :
  let result := connect_sources ndi (MultiCameraRecorder_init names) in
  (result.1 = true ↔
   ∃ j name, names !! j = Some name ∧ connected ndi j name = true) ∧
  (∀ name,
     name ∈ dict_keys (receivers result.2) ↔
     ∃ j, names !! j = Some name ∧ connected ndi j name = true) ∧
  (∀ name r,
     dict_get name (receivers result.2) = Some r →
     source_name r = name ∧ running r = true ∧ is_Some (ndi_recv r)) ∧
  (∀ j name,
     ((connect (ndi j) (NDIReceiver_init name)).2 ≤ 20)%nat) ∧
  (∀ j name,
     (∀ k, (k < 20)%nat →
           existsb (is_named name) (find_get_current_sources (ndi j) k)
           = false) →
     connected ndi j name = false).
Proof.
  intros result.
  assert (∀ name,
            name ∈ dict_keys (receivers result.2) ↔
            ∃ j, names !! j = Some name ∧ connected ndi j name = true)
    as Hkeys.
  { intros name. subst result. simpl. rewrite connect_each_keys. simpl.
    split; [intros [[]%elem_of_nil | H]; done | by right]. }
  split; [|split; [done |]; split; [|split]].
  - subst result. simpl in *.
    destruct (connect_each ndi 0 names []) as [|[name r] rest] eqn:Hc.
    + split; [done |]. intros (j & name & Hj & Hok).
      assert (name ∈ dict_keys ([] : list (string * NDIReceiver))) as Hin
        by (apply Hkeys; eauto).
      by apply elem_of_nil in Hin.
    + split; [|done]. intros _.
      destruct (proj1 (Hkeys name)) as (j & Hj & Hok);
        [unfold dict_keys; simpl; apply list_elem_of_here | eauto].
  - intros name r Hr. subst result. simpl in Hr.
    eapply connect_each_values in Hr; [|done].
    unfold started in Hr. naive_solver.
  - intros j name. apply connect_polls.
  - intros j name Hno. unfold connected. rewrite start_connect.
    by apply connect_not_found.
Qed.

(** The retry window on two libraries: the source turns up at the third
    poll, or never. *)
Example connect_at_third_poll :
  (connect (ndi_found_at_third_poll "cam1") (NDIReceiver_init "cam1")).1.1
  = true ∧
  (connect (ndi_found_at_third_poll "cam1") (NDIReceiver_init "cam1")).2
  = 3%nat.
Proof. by vm_compute. Qed.

Example connect_gives_up :
  connect ndi_no_source (NDIReceiver_init "cam1")
  = (false, NDIReceiver_init "cam1", 20%nat).
Proof. by vm_compute. Qed.

(** A failed attempt leaves the other names in: of two requested names the
    first is found, the second never. *)
Example connect_sources_partial :
  let ndi j :=
    if (j =? 0)%nat then ndi_found_at_third_poll "cam1" else ndi_no_source in
  let result :=
    connect_sources ndi (MultiCameraRecorder_init ["cam1"; "cam2"]) in
  result.1 = true ∧ dict_keys (receivers result.2) = ["cam1"].
Proof. by vm_compute. Qed.

End connecting.

(** ** The loop of [run] *)

Section run_loop.
Import Py Cv ndi_receiver Spec.
Implicit Types (σ : heap) (self : MultiCameraRecorder) (s : world)
  (items : list (string * NDIReceiver)) (e : event).

Lemma dict_set_elem {V} (d : list (string * V)) k v k' v' :
  (k', v') ∈ dict_set k v d → (k', v') = (k, v) ∨ (k', v') ∈ d.
Proof.
  induction d as [|[k0 v0] d IH]; simpl.
  - intros ?%list_elem_of_singleton. by left.
  - destruct (decide (k0 = k)) as [->|Hne]; rewrite !elem_of_cons;
      naive_solver.
Qed.

Lemma arrays_of_dict_set (frames : list (string * option loc)) name l l' :
  l' ∈ arrays_of (dict_set name (Some l) frames) →
  l' = l ∨ l' ∈ arrays_of frames.
Proof.
  unfold arrays_of. rewrite !list_elem_of_omap.
  intros ([k o] & Hin & Ho). simpl in Ho. subst o.
  apply dict_set_elem in Hin as [[= -> ->] | Hin]; [by left |].
  right. by exists (k, Some l').
Qed.

Lemma exec_snoc events e s : exec (events ++ [e]) s = step e (exec events s).
Proof. unfold exec. by rewrite fold_left_app. Qed.

(** A property kept by every admitted step holds along every run of
    admitted steps. *)
Lemma exec_invariant (ok : event → Prop) (P : world → Prop) :
  (∀ e s, ok e → P s → P (step e s)) →
  ∀ events s, Forall ok events → P s → P (exec events s).
Proof.
  intros Hstep events. induction events as [|e events IH]; intros s Hok Hs;
    [done |].
  apply Forall_cons in Hok as [He Hok]. simpl. apply IH; [done |].
  by apply Hstep.
Qed.

(** *** Opening the writers *)

Lemma open_writers_extends dir items :
  ∀ writers σ l,
    is_Some (σ !! l) → (open_writers dir items writers σ).2 !! l = σ !! l.
Proof.
  induction items as [|[name r] items IH]; intros writers σ l Hl; simpl;
    [done |].
  pose proof (get_latest_frame_extends r σ l Hl) as Hext.
  destruct (get_latest_frame r σ) as [[copy|] σ1]; simpl in Hext.
  - destruct (shape (deref σ1 copy)) as [h w].
    rewrite IH; [done | by rewrite Hext].
  - rewrite IH; [done | by rewrite Hext].
Qed.

(** A name whose receivers hold no frame gets no writer. *)
Lemma open_writers_no_frame dir name items :
  ∀ writers σ,
    (∀ r, (name, r) ∈ items → latest_frame r = None) →
    dict_get name (open_writers dir items writers σ).1
    = dict_get name writers.
Proof.
  induction items as [|[name0 r] items IH]; intros writers σ Hno; simpl;
    [done |].
  assert (∀ r', (name, r') ∈ items → latest_frame r' = None) as Hno'.
  { intros r' Hin. apply Hno. by apply list_elem_of_further. }
  destruct (get_latest_frame r σ) as [[copy|] σ1] eqn:Hget.
  - destruct (shape (deref σ1 copy)) as [h w].
    rewrite IH by done.
    destruct (decide (name0 = name)) as [->|Hne];
      [|by apply dict_get_set_ne].
    rewrite get_latest_frame_absent in Hget; [done |].
    apply Hno, list_elem_of_here.
  - by apply IH.
Qed.

(** With no frame anywhere, nothing is opened and nothing allocated. *)
Lemma open_writers_no_frames dir items :
  ∀ writers σ,
    (∀ name r, (name, r) ∈ items → latest_frame r = None) →
    open_writers dir items writers σ = (writers, σ).
Proof.
  induction items as [|[name0 r] items IH]; intros writers σ Hno; simpl;
    [done |].
  rewrite get_latest_frame_absent by (eapply Hno, list_elem_of_here).
  apply IH. intros name r' Hin. eapply Hno. by apply list_elem_of_further.
Qed.

(** *** Polling the receivers *)

(** A poll adds to the trace nothing but writes to writers that are in the
    mapping, and only while recording. *)
Lemma poll_receivers_trace recording writers items :
  ∀ σ frames counts out σ' frames' counts' out',
    poll_receivers recording writers items σ frames counts out
    = (σ', frames', counts', out') →
    ∀ ev, ev ∈ out' →
      ev ∈ out ∨
      ∃ name w f, ev = VideoWriter_write w f ∧
                  dict_get name writers = Some w ∧ recording = true.
Proof.
  induction items as [|[name r] items IH];
    intros σ frames counts out σ' frames' counts' out' Hpoll ev Hev;
    simpl in Hpoll.
  - injection Hpoll as <- <- <- <-. by left.
  - destruct (get_latest_frame r σ) as [[copy|] σ1].
    + destruct (IH _ _ _ _ _ _ _ _ Hpoll ev Hev) as [Hin | Hnew];
        [|by right].
      destruct (dict_get name writers) as [writer|] eqn:Hw; [|by left].
      destruct recording; [|by left].
      apply elem_of_app in Hin as [Hin | ->%list_elem_of_singleton];
        [by left |].
      right. by exists name, writer, (deref σ1 copy).
    + by apply (IH _ _ _ _ _ _ _ _ Hpoll).
Qed.

(** What a poll does when every register points to a live array: the heap
    only grows, the frames collected are new arrays, and each frame handed
    to a writer has the contents of a register. *)
Lemma poll_receivers_spec recording writers items :
  ∀ σ frames counts out σ' frames' counts' out',
    (∀ name r l, (name, r) ∈ items → latest_frame r = Some l →
                 is_Some (σ !! l)) →
    poll_receivers recording writers items σ frames counts out
    = (σ', frames', counts', out') →
    (∀ l, is_Some (σ !! l) → σ' !! l = σ !! l) ∧
    (∀ l, l ∈ arrays_of frames' → l ∈ arrays_of frames ∨ σ !! l = None) ∧
    (∀ w f, VideoWriter_write w f ∈ out' →
            VideoWriter_write w f ∈ out ∨
            ∃ name r l, (name, r) ∈ items ∧ latest_frame r = Some l ∧
                        f = deref σ l ∧ dict_get name writers = Some w ∧
                        recording = true).
Proof.
  induction items as [|[name r] items IH];
    intros σ frames counts out σ' frames' counts' out' Hlive Hpoll;
    simpl in Hpoll.
  - injection Hpoll as <- <- <- <-. eauto.
  - assert (∀ name' r' l, (name', r') ∈ items → latest_frame r' = Some l →
                          is_Some (σ !! l)) as Hlive'.
    { intros name' r' l Hin. apply (Hlive name' r').
      by apply list_elem_of_further. }
    destruct (latest_frame r) as [l0|] eqn:Hreg.
    + rewrite (get_latest_frame_present r σ l0 Hreg) in Hpoll.
      set (copy := (alloc (deref σ l0) σ).1) in *.
      set (σ1 := (alloc (deref σ l0) σ).2) in *.
      assert (∀ l, is_Some (σ !! l) → σ1 !! l = σ !! l) as Hext
        by (intros l Hl; by apply alloc_old).
      assert (σ !! copy = None) as Hfresh by apply alloc_fresh.
      assert (deref σ1 copy = deref σ l0) as Hcopy.
      { unfold deref at 1. subst copy σ1. by rewrite alloc_lookup. }
      apply IH in Hpoll as (Hheap & Hframes & Hout).
      2:{ intros name' r' l Hin Hl. rewrite Hext; eauto. }
      split; [|split].
      * intros l Hl. rewrite Hheap; [by apply Hext | by rewrite Hext].
      * intros l Hl. apply Hframes in Hl as [Hl | Hl].
        -- apply arrays_of_dict_set in Hl as [-> | Hl]; [by right | by left].
        -- right. destruct (σ !! l) eqn:Hσ; [|done].
           rewrite Hext in Hl by eauto. congruence.
      * intros w f Hw.
        apply Hout in Hw as [Hw | (n & r' & l & Hin & Hl & -> & Hd & Hrec)].
        -- destruct (dict_get name writers) as [writer|] eqn:Hd; [|by left].
           destruct recording; [|by left].
           apply elem_of_app in Hw as [Hw | Hw%list_elem_of_singleton];
             [by left |].
           injection Hw as -> ->. right. exists name, r, l0.
           split; [apply list_elem_of_here | done].
        -- right. exists n, r', l.
           split; [by apply list_elem_of_further |].
           split; [done |]. split; [|done].
           unfold deref. rewrite Hext; eauto.
    + rewrite (get_latest_frame_absent r σ Hreg) in Hpoll.
      apply IH in Hpoll as (Hheap & Hframes & Hout); [|done].
      split; [done |]. split; [done |].
      intros w f Hw. apply Hout in Hw as [Hw | (n & r' & l & Hin & Hrest)];
        [by left |].
      right. exists n, r', l. split; [by apply list_elem_of_further | done].
Qed.

(** The writes of a poll are appended to the trace it was given. *)
Lemma poll_receivers_appends recording writers items :
  ∀ σ frames counts out σ' frames' counts' out',
    poll_receivers recording writers items σ frames counts out
    = (σ', frames', counts', out') →
    ∃ writes,
      out' = out ++ writes ∧
      Forall (λ ev, ∃ w f, ev = VideoWriter_write w f) writes.
Proof.
  induction items as [|[name r] items IH];
    intros σ frames counts out σ' frames' counts' out' Hpoll;
    simpl in Hpoll.
  - injection Hpoll as <- <- <- <-. exists []. by rewrite app_nil_r.
  - destruct (get_latest_frame r σ) as [[copy|] σ1]; [|by eapply IH].
    apply IH in Hpoll as (writes & -> & Hwrites).
    destruct (dict_get name writers) as [writer|]; [|by exists writes].
    destruct recording; [|by exists writes].
    exists (VideoWriter_write writer (deref σ1 copy) :: writes).
    split; [by rewrite <- app_assoc |].
    apply Forall_cons. eauto.
Qed.

(** The writes of a poll are the writes due, when every register points
    to a live array. *)
Lemma poll_receivers_due recording writers items :
  ∀ σ frames counts out σ' frames' counts' out',
    (∀ name r l, (name, r) ∈ items → latest_frame r = Some l →
                 is_Some (σ !! l)) →
    poll_receivers recording writers items σ frames counts out
    = (σ', frames', counts', out') →
    out' = out ++ due_writes recording writers items σ.
Proof.
  induction items as [|[name r] items IH];
    intros σ frames counts out σ' frames' counts' out' Hlive Hpoll;
    simpl in Hpoll.
  - injection Hpoll as <- <- <- <-. by rewrite app_nil_r.
  - assert (∀ name' r' l, (name', r') ∈ items → latest_frame r' = Some l →
                          is_Some (σ !! l)) as Hlive'.
    { intros name' r' l Hin. apply (Hlive name' r').
      by apply list_elem_of_further. }
    assert (∀ σ1, (∀ l, is_Some (σ !! l) → σ1 !! l = σ !! l) →
                  due_writes recording writers items σ1
                  = due_writes recording writers items σ) as Hsame.
    { intros σ1 Hext. clear -Hlive' Hext.
      induction items as [|[n r'] items IH]; [done |]. simpl.
      rewrite IH.
      2:{ intros n' r'' l Hin. apply (Hlive' n' r'').
          by apply list_elem_of_further. }
      destruct (latest_frame r') as [l|] eqn:Hl; [|done].
      unfold deref. rewrite Hext; [done |].
      apply (Hlive' n r'); [apply list_elem_of_here | done]. }
    simpl. destruct (latest_frame r) as [l0|] eqn:Hreg.
    + rewrite (get_latest_frame_present r σ l0 Hreg) in Hpoll.
      assert (deref (alloc (deref σ l0) σ).2 (alloc (deref σ l0) σ).1
              = deref σ l0) as Hcopy.
      { unfold deref at 1. by rewrite alloc_lookup. }
      rewrite Hcopy in Hpoll.
      apply IH in Hpoll.
      2:{ intros name' r' l Hin Hl. rewrite alloc_old; eauto. }
      rewrite Hsame in Hpoll by (intros l Hl; by apply alloc_old).
      rewrite Hpoll.
      destruct (dict_get name writers) as [writer|]; [|done].
      destruct recording; [|done]. by rewrite <- app_assoc.
    + rewrite (get_latest_frame_absent r σ Hreg) in Hpoll.
      by apply IH in Hpoll.
Qed.



(** *** Drawing the grid *)



(** *** One iteration *)

Lemma store_frame_recorder name v_data s :
  writers (recorder (store_frame name v_data s)) = writers (recorder s) ∧
  recording (recorder (store_frame name v_data s)) = recording (recorder s) ∧
  trace (store_frame name v_data s) = trace s.
Proof.
  unfold store_frame.
  destruct (dict_get name (receivers (recorder s))) as [r|]; [|done].
  by destruct (running r && _).
Qed.

Lemma store_frame_uncaught name v_data s :
  uncaught (store_frame name v_data s) = uncaught s ∧
  recorder_running (recorder (store_frame name v_data s))
  = recorder_running (recorder s).
Proof.
  unfold store_frame.
  destruct (dict_get name (receivers (recorder s))) as [r|]; [|done].
  by destruct (running r && _).
Qed.

(** The ways through an iteration: none, when the loop has ended; through
    to the key, when the grid is returned; out of [run], when drawing the
    grid raises. *)
Lemma loop_iteration_cases key timestamp s :
  (loop_iteration key timestamp s = s ∧
   (recorder_running (recorder s) = false ∨ is_Some (uncaught s))) ∨
  ∃ σ1 frames counts out,
    recorder_running (recorder s) = true ∧ uncaught s = None ∧
    poll_receivers (recording (recorder s)) (writers (recorder s))
      (receivers (recorder s)) (heap_of s) [] (frame_counts s) (trace s)
    = (σ1, frames, counts, out) ∧
    ((∃ grid σ2,
        create_grid_display (recording (recorder s)) frames σ1
        = (returned grid, σ2) ∧
        loop_iteration key timestamp s
        = show_and_dispatch key timestamp (recorder s) grid σ2 counts out) ∨
     (∃ (exn : exception) σ2,
        create_grid_display (recording (recorder s)) frames σ1
        = (raised exn, σ2) ∧
        loop_iteration key timestamp s
        = crashed exn (recorder s) σ2 counts out)).
Proof.
  unfold loop_iteration.
  destruct (recorder_running (recorder s)); simpl; [|by eauto].
  destruct (uncaught s) as [e|] eqn:Hunc.
  { rewrite bool_decide_eq_true_2 by eauto. eauto. }
  rewrite bool_decide_eq_false_2 by (by intros [? ?]).
  right.
  destruct (poll_receivers _ _ _ _ _ _ _) as [[[σ1 frames] counts] out].
  exists σ1, frames, counts, out. repeat split; try done.
  destruct (create_grid_display _ _ _) as [[grid|e] σ2]; eauto 10.
Qed.

Lemma show_and_dispatch_uncaught key timestamp self grid σ counts out :
  uncaught (show_and_dispatch key timestamp self grid σ counts out) = None.
Proof.
  unfold show_and_dispatch.
  destruct (Z.land key 255 =? ord_q)%Z;
    [by destruct (MultiCameraRecorder_stop self) |].
  destruct (Z.land key 255 =? ord_r)%Z; [|done].
  destruct (recording self); [by destruct (stop_recording self) |].
  by destruct (start_recording timestamp self σ).
Qed.

Lemma show_and_dispatch_writers key timestamp self grid σ counts out :
  is_toggle (iteration key timestamp) = false →
  writers (recorder (show_and_dispatch key timestamp self grid σ counts out))
  = writers self
  ∨ writers
      (recorder (show_and_dispatch key timestamp self grid σ counts out))
    = [].
Proof.
  simpl. intros Hkey. unfold show_and_dispatch. rewrite Hkey.
  destruct (Z.land key 255 =? ord_q)%Z; [|by left].
  unfold MultiCameraRecorder_stop; simpl.
  destruct (recording self); simpl; [by right | by left].
Qed.

(** What follows the grid adds no write to the trace. *)
Lemma show_and_dispatch_trace key timestamp self grid σ counts out :
  ∃ rest,
    trace (show_and_dispatch key timestamp self grid σ counts out)
    = out ++ rest ∧
    Forall (λ ev, ∀ w f, ev ≠ VideoWriter_write w f) rest.
Proof.
  unfold show_and_dispatch.
  assert (∀ (l : list VideoWriter),
            Forall (λ ev, ∀ w f, ev ≠ VideoWriter_write w f)
              (VideoWriter_release <$> l)) as Hrel.
  { intros l. apply Forall_fmap, Forall_forall. by intros. }
  set (shown := match grid with
                | Some g => [imshow "NDI Multi-Camera Receiver" g]
                | None => []
                end).
  assert (Forall (λ ev, ∀ w f, ev ≠ VideoWriter_write w f) shown) as Hshown.
  { subst shown. destruct grid; [|done]. apply Forall_cons. by split. }
  assert (match grid with
          | Some g => out ++ [imshow "NDI Multi-Camera Receiver" g]
          | None => out
          end = out ++ shown) as ->.
  { subst shown. destruct grid; [done | by rewrite app_nil_r]. }
  destruct (Z.land key 255 =? ord_q)%Z.
  { unfold MultiCameraRecorder_stop; simpl.
    destruct (recording self); simpl.
    - exists (shown ++ (VideoWriter_release <$> dict_values (writers self))).
      split; [by rewrite <- app_assoc | by apply Forall_app].
    - exists shown. by rewrite app_nil_r. }
  destruct (Z.land key 255 =? ord_r)%Z; [|by exists shown].
  destruct (recording self); simpl.
  - exists (shown ++ (VideoWriter_release <$> dict_values (writers self))).
    split; [by rewrite <- app_assoc | by apply Forall_app].
  - unfold start_recording. destruct (open_writers _ _ _ _). simpl.
    by exists shown.
Qed.

Lemma show_and_dispatch_heap key timestamp self grid σ counts out l :
  is_Some (σ !! l) →
  heap_of (show_and_dispatch key timestamp self grid σ counts out) !! l
  = σ !! l.
Proof.
  intros Hl. unfold show_and_dispatch.
  destruct (Z.land key 255 =? ord_q)%Z;
    [by destruct (MultiCameraRecorder_stop self) |].
  destruct (Z.land key 255 =? ord_r)%Z; [|done].
  destruct (recording self); simpl; [done |].
  unfold start_recording.
  pose proof (open_writers_extends ("recordings/" +:+ timestamp)
                (receivers self) (writers self) σ l Hl) as Hopen.
  by destruct (open_writers _ _ _ _).
Qed.

Lemma show_and_dispatch_receivers key timestamp self grid σ counts out
    name r' :
  (name, r')
    ∈ receivers
        (recorder (show_and_dispatch key timestamp self grid σ counts out)) →
  ∃ r, (name, r) ∈ receivers self ∧ latest_frame r' = latest_frame r.
Proof.
  unfold show_and_dispatch.
  destruct (Z.land key 255 =? ord_q)%Z.
  { unfold MultiCameraRecorder_stop; simpl.
    destruct (recording self); simpl;
      intros ([n r] & [= -> ->] & Hin)%list_elem_of_fmap; eauto. }
  destruct (Z.land key 255 =? ord_r)%Z; [|by eauto].
  destruct (recording self); simpl; [by eauto |].
  unfold start_recording. destruct (open_writers _ _ _ _). simpl. eauto.
Qed.

(** An iteration that does not toggle recording keeps the writers, or
    drops them all when it is the last. *)
Lemma loop_iteration_writers key timestamp s :
  is_toggle (iteration key timestamp) = false →
  writers (recorder (loop_iteration key timestamp s)) = writers (recorder s)
  ∨ writers (recorder (loop_iteration key timestamp s)) = [].
Proof.
  intros Hkey.
  destruct (loop_iteration_cases key timestamp s)
    as [[-> _] | (σ1 & frames & counts & out & _ & _ & _ &
                  [(grid & σ2 & _ & ->) | (e & σ2 & _ & ->)])];
    [by left | by apply show_and_dispatch_writers | by left].
Qed.

(** What one iteration adds to the trace: first the writes of its poll,
    then anything but writes. *)
Lemma loop_iteration_trace key timestamp s :
  ∃ writes rest,
    trace (loop_iteration key timestamp s) = trace s ++ writes ++ rest ∧
    Forall (λ ev, ∃ w f, ev = VideoWriter_write w f) writes ∧
    Forall (λ ev, ∀ w f, ev ≠ VideoWriter_write w f) rest ∧
    ∀ σ' frames' counts' out',
      poll_receivers (recording (recorder s)) (writers (recorder s))
        (receivers (recorder s)) (heap_of s) [] (frame_counts s) (trace s)
      = (σ', frames', counts', out') →
      recorder_running (recorder s) = true → uncaught s = None →
      out' = trace s ++ writes.
Proof.
  destruct (loop_iteration_cases key timestamp s)
    as [[-> Hidle] | (σ1 & frames & counts & out & Hrun & Hunc & Hpoll &
                      Hgrid)].
  { exists [], []. rewrite !app_nil_r. repeat split; try done.
    intros ? ? ? ? _ Hrun Hunc.
    destruct Hidle as [? | [? ?]]; congruence. }
  destruct (poll_receivers_appends _ _ _ _ _ _ _ _ _ _ _ Hpoll)
    as (writes & -> & Hwrites).
  destruct Hgrid as [(grid & σ2 & _ & ->) | (e & σ2 & _ & ->)].
  - destruct (show_and_dispatch_trace key timestamp (recorder s) grid σ2
                counts (trace s ++ writes)) as (rest & -> & Hrest).
    exists writes, rest. rewrite <- app_assoc. repeat split; try done.
    intros ? ? ? ? Hp _ _. rewrite Hpoll in Hp. by injection Hp as <- <- <- <-.
  - exists writes, []. simpl. rewrite app_nil_r. repeat split; try done.
    intros ? ? ? ? Hp _ _. rewrite Hpoll in Hp. by injection Hp as <- <- <- <-.
Qed.

End run_loop.

(** ** Recording sessions *)

Section recording.
Import Py Cv ndi_receiver Spec.
Implicit Types (σ : heap) (self : MultiCameraRecorder) (s : world)
  (items : list (string * NDIReceiver)) (e : event).

Lemma registers_live s name r l :
  registers_as_received s →
  (name, r) ∈ receivers (recorder s) → latest_frame r = Some l →
  is_Some (heap_of s !! l).
Proof. intros Hreg Hin Hl. destruct (Hreg name r l Hin Hl) as (a & -> & _). eauto. Qed.

(** An iteration leaves every array that existed before it as it was:
    what it draws on are the copies it took itself. *)
Lemma loop_iteration_heap key timestamp s l :
  registers_as_received s →
  is_Some (heap_of s !! l) →
  heap_of (loop_iteration key timestamp s) !! l = heap_of s !! l.
Proof.
  intros Hreg Hl.
  destruct (loop_iteration_cases key timestamp s)
    as [[-> _] | (σ1 & frames & counts & out & _ & _ & Hpoll & Hgrid)];
    [done |].
  apply poll_receivers_spec in Hpoll as (Hheap & Hframes & _).
  2:{ intros name r l' Hin Hl'. by eapply registers_live. }
  assert (l ∉ arrays_of frames) as Hnot.
  { intros [Hin | Hnone]%Hframes; [by apply elem_of_nil in Hin |].
    rewrite Hnone in Hl. by destruct Hl. }
  pose proof (create_grid_display_untouched (recording (recorder s)) frames
                σ1 l Hnot) as Hdraw.
  destruct Hgrid as [(grid & σ2 & Hg & ->) | (e & σ2 & Hg & ->)];
    rewrite Hg in Hdraw; simpl in Hdraw.
  - rewrite show_and_dispatch_heap; [by rewrite Hdraw, Hheap |].
    by rewrite Hdraw, Hheap.
  - simpl. by rewrite Hdraw, Hheap.
Qed.

(** An iteration leaves every register pointing where it pointed. *)
Lemma loop_iteration_receivers key timestamp s name r' :
  (name, r') ∈ receivers (recorder (loop_iteration key timestamp s)) →
  ∃ r, (name, r) ∈ receivers (recorder s) ∧
       latest_frame r' = latest_frame r.
Proof.
  destruct (loop_iteration_cases key timestamp s)
    as [[-> _] | (σ1 & frames & counts & out & _ & _ & _ &
                  [(grid & σ2 & _ & ->) | (e & σ2 & _ & ->)])];
    [by eauto | apply show_and_dispatch_receivers | by eauto].
Qed.

Lemma loop_iteration_registers key timestamp s :
  registers_as_received s →
  registers_as_received (loop_iteration key timestamp s).
Proof.
  intros Hreg name r' l Hin Hl.
  apply loop_iteration_receivers in Hin as (r & Hin & Heq).
  rewrite Heq in Hl. destruct (Hreg name r l Hin Hl) as (a & Ha & Hrecv).
  exists a. split; [|done].
  rewrite loop_iteration_heap; [done.. | by rewrite Ha].
Qed.

Lemma store_frame_registers name id yres xres s :
  registers_as_received s →
  registers_as_received (store_frame name (ndi_video_data id yres xres) s).
Proof.
  intros Hreg. unfold store_frame.
  destruct (dict_get name (receivers (recorder s))) as [r0|]; [|done].
  destruct (running r0 && _); [|done].
  unfold receive_video.
  set (a := cvtColor (ndi_video_data id yres xres) "COLOR_BGRA2BGR").
  pose proof (alloc_lookup a (heap_of s)) as Hnew.
  pose proof (λ l, alloc_old a (heap_of s) l) as Hold.
  destruct (alloc a (heap_of s)) as [l0 σ1]. simpl in *.
  intros n r l Hin Hl. simpl in *.
  apply dict_set_elem in Hin as [[= -> ->] | Hin].
  - simpl in Hl. injection Hl as <-. exists a. split; [done |].
    by exists id, yres, xres.
  - destruct (Hreg n r l Hin Hl) as (b & Hb & Hrecv).
    exists b. split; [|done]. rewrite Hold; [done | by rewrite Hb].
Qed.

(** The trace of an iteration that runs: the trace before, the writes
    due, and then no further write. *)
Lemma loop_iteration_due key timestamp s :
  registers_as_received s →
  recorder_running (recorder s) = true → uncaught s = None →
  ∃ rest,
    trace (loop_iteration key timestamp s)
    = trace s
      ++ due_writes (recording (recorder s)) (writers (recorder s))
           (receivers (recorder s)) (heap_of s)
      ++ rest ∧
    Forall (λ ev, ∀ w f, ev ≠ VideoWriter_write w f) rest.
Proof.
  intros Hreg Hrun Hunc.
  destruct (loop_iteration_trace key timestamp s)
    as (writes & rest & Htrace & _ & Hrest & Hout).
  destruct (poll_receivers (recording (recorder s)) (writers (recorder s))
              (receivers (recorder s)) (heap_of s) [] (frame_counts s)
              (trace s)) as [[[σ1 frames] counts] out] eqn:Hpoll.
  specialize (Hout _ _ _ _ eq_refl Hrun Hunc).
  apply poll_receivers_due in Hpoll.
  2:{ intros name r l' Hi Hl'. by eapply registers_live. }
  rewrite Hpoll in Hout. apply app_inv_head in Hout as <-.
  by exists rest.
Qed.

(** The frames an iteration hands to the writers have the contents of
    registers. *)
Lemma loop_iteration_writes key timestamp s w f :
  registers_as_received s →
  VideoWriter_write w f ∈ trace (loop_iteration key timestamp s) →
  VideoWriter_write w f ∈ trace s ∨
  ∃ name r l, (name, r) ∈ receivers (recorder s) ∧
              latest_frame r = Some l ∧ heap_of s !! l = Some f ∧
              dict_get name (writers (recorder s)) = Some w ∧
              recording (recorder s) = true.
Proof.
  intros Hreg Hin.
  destruct (loop_iteration_cases key timestamp s)
    as [[Hidle _] | (σ1 & frames & counts & out & Hrun & Hunc & Hpoll & _)].
  { left. by rewrite Hidle in Hin. }
  destruct (loop_iteration_trace key timestamp s)
    as (writes & rest & Htrace & _ & Hrest & Hout).
  specialize (Hout _ _ _ _ Hpoll Hrun Hunc).
  rewrite Htrace, app_assoc, <- Hout in Hin.
  apply elem_of_app in Hin as [Hin | Hin].
  2:{ rewrite Forall_forall in Hrest. by destruct (Hrest _ Hin w f). }
  apply poll_receivers_spec in Hpoll as (_ & _ & Hw).
  2:{ intros name r l' Hi Hl'. by eapply registers_live. }
  destruct (Hw w f Hin) as [Hold | (name & r & l & Hi & Hl & -> & Hd & Hrec)];
    [by left |].
  right. exists name, r, l. repeat split; try done.
  destruct (Hreg name r l Hi Hl) as (a & Ha & _).
  unfold deref. by rewrite Ha.
Qed.

End recording.

Section sessions.
Import Py Cv ndi_receiver Spec.
Implicit Types (σ : heap) (self : MultiCameraRecorder) (s : world)
  (items : list (string * NDIReceiver)) (e : event).

Lemma step_writers e s :
  is_toggle e = false →
  writers (recorder (step e s)) = writers (recorder s)
  ∨ writers (recorder (step e s)) = [].
Proof.
  destruct e as [name id yres xres | key timestamp]; simpl; intros Hkey.
  - left. apply store_frame_recorder.
  - by apply loop_iteration_writers.
Qed.

(** Whatever a step hands to a writer, the writer is in the mapping. *)
Lemma step_writes e s w f :
  VideoWriter_write w f ∈ trace (step e s) →
  VideoWriter_write w f ∈ trace s ∨
  ∃ name, dict_get name (writers (recorder s)) = Some w.
Proof.
  destruct e as [name id yres xres | key timestamp]; simpl; intros Hin.
  - left. by rewrite (proj2 (proj2 (store_frame_recorder _ _ _))) in Hin.
  - destruct (loop_iteration_cases key timestamp s)
      as [[Hidle _] | (σ1 & frames & counts & out & Hrun & Hunc & Hpoll & _)].
    { left. by rewrite Hidle in Hin. }
    destruct (loop_iteration_trace key timestamp s)
      as (writes & rest & Htrace & _ & Hrest & Hout).
    specialize (Hout _ _ _ _ Hpoll Hrun Hunc).
    rewrite Htrace, app_assoc, <- Hout in Hin.
    apply elem_of_app in Hin as [Hin | Hin].
    2:{ rewrite Forall_forall in Hrest. by destruct (Hrest _ Hin w f). }
    destruct (poll_receivers_trace _ _ _ _ _ _ _ _ _ _ _ Hpoll _ Hin)
      as [Hold | (name & w' & f' & [= -> ->] & Hd & _)]; eauto.
Qed.

(** C2. Let [start_recording] be called on a recorder without writers.
    If no receiver holds a frame, the writers mapping is empty afterwards,
    recording is on and the call has returned without touching the heap.
    And whatever the other sources hold, a source without a frame at that
    moment has no writer afterwards and gets none for the rest of the
    session, however many of its frames arrive and however often the loop
    goes round without the recording key: a frame is only ever handed to a
    writer that the call put into the mapping under another name. *)
Theorem start_recording_skips_frameless_sources (timestamp : string)
    (self : MultiCameraRecorder) (σ : heap) (counts : list (string * nat))
    (tr : list io) :
  writers self = [] →
  ((∀ name r, (name, r) ∈ receivers self → latest_frame r = None) →
   writers (start_recording timestamp self σ).1 = [] ∧
   recording (start_recording timestamp self σ).1 = true ∧
   (start_recording timestamp self σ).2 = σ) ∧
  (∀ name,
     (∀ r, (name, r) ∈ receivers self → latest_frame r = None) →
     ∀ later,
       Forall (λ e, is_toggle e = false) later →
       let s := exec later (after_start_recording timestamp self σ counts tr) in
       dict_get name (writers (recorder s)) = None ∧
       ∀ w f,
         VideoWriter_write w f ∈ trace s →
         VideoWriter_write w f ∈ tr ∨
         ∃ name',
           name' ≠ name ∧
           dict_get name' (writers (start_recording timestamp self σ).1)
           = Some w).
Proof.
  intros Hempty. split.
  { intros Hno. unfold start_recording.
    rewrite open_writers_no_frames by done. by rewrite Hempty. }
  intros name Hno later Hlater.
  set (opened := writers (start_recording timestamp self σ).1).
  assert (dict_get name opened = None) as Hname.
  { subst opened. unfold start_recording.
    pose proof (open_writers_no_frame ("recordings/" +:+ timestamp) name
                  (receivers self) (writers self) σ Hno) as Hopen.
    destruct (open_writers _ _ _ _) as [ws σ']. simpl in *.
    by rewrite Hopen, Hempty. }
  pose (session s :=
          (writers (recorder s) = opened ∨ writers (recorder s) = []) ∧
          ∀ w f, VideoWriter_write w f ∈ trace s →
                 VideoWriter_write w f ∈ tr ∨
                 ∃ name', dict_get name' opened = Some w).
  assert (session
            (exec later (after_start_recording timestamp self σ counts tr)))
    as [Hws Hwrites].
  { apply (exec_invariant (λ e, is_toggle e = false)); [|done|].
    - intros e s He [Hw Htr]. split.
      + destruct (step_writers e s He) as [-> | ->]; [done | by right].
      + intros w f Hin.
        destruct (step_writes e s w f Hin) as [Hold | [name' Hd]];
          [by apply Htr |].
        right. exists name'. destruct Hw as [Hw | Hw]; rewrite Hw in Hd;
          [done | by simpl in Hd].
    - split; [by left | by left]. }
  split.
  - destruct Hws as [-> | ->]; done.
  - intros w f Hin.
    destruct (Hwrites w f Hin) as [Hold | [name' Hd]]; [by left |].
    right. exists name'. split; [|done]. intros ->. congruence.
Qed.

Lemma start_recording_skips_frameless_sources_witness :
  writers (recorder one_camera) = [] ∧
  let s :=
    exec [video_frame "cam1" 1 720 1280; iteration (-1) "";
          video_frame "cam1" 2 720 1280; iteration 115 ""]
      (after_start_recording "20250101_120000" (recorder one_camera) ∅
         (frame_counts one_camera) []) in
  dict_get "cam1" (writers (recorder s)) = None.
Proof.
  assert (writers (recorder one_camera) = []) as Hempty by reflexivity.
  split; [exact Hempty |].
  refine (proj1 (proj2 (start_recording_skips_frameless_sources
                          "20250101_120000" (recorder one_camera) ∅
                          (frame_counts one_camera) [] Hempty)
                   "cam1" _ _ _)).
  - intros r Hin. vm_compute in Hin.
    apply list_elem_of_singleton in Hin. injection Hin as ->.
    reflexivity.
  - repeat constructor.
Defined.

End sessions.

Section raw_capture.
Import Py Cv ndi_receiver Spec.
Implicit Types (σ : heap) (self : MultiCameraRecorder) (s : world)
  (items : list (string * NDIReceiver)) (e : event).

Lemma as_received_not_drawn_on f : as_received f → drawn_on f = false.
Proof. by intros (id & yres & xres & ->). Qed.

(** No receiver holds a frame when [connect_sources] is over. *)
Lemma connect_each_no_frames (ndi : nat → NDIlib) names :
  ∀ i receivers,
    (∀ name r, (name, r) ∈ receivers → latest_frame r = None) →
    ∀ name r,
      (name, r) ∈ connect_each ndi i names receivers → latest_frame r = None.
Proof.
  induction names as [|name0 names IH]; intros i receivers Hall; simpl;
    [done |].
  destruct (start (ndi i) (NDIReceiver_init name0)) as [ok receiver] eqn:Hs.
  apply IH. destruct ok; [|done].
  intros name r [[= -> ->] | Hin]%dict_set_elem; [|by eapply Hall].
  pose proof (start_ok (ndi i) (NDIReceiver_init name0)) as Hok.
  rewrite Hs in Hok. simpl in Hok. by destruct Hok as (_ & _ & _ & ->).
Qed.

Lemma boot_registers ndi names s0 :
  boot ndi names = Some s0 →
  registers_as_received s0 ∧ writes_as_received s0.
Proof.
  unfold boot, connect_sources. simpl.
  destruct (connect_each ndi 0 names []) as [|x rest] eqn:Hc; [done |].
  intros [= <-]. split.
  - intros name r l Hin Hl. simpl in Hin. rewrite <- Hc in Hin.
    apply connect_each_no_frames in Hin; [congruence |].
    by intros ? ? ?%elem_of_nil.
  - by intros w f ?%elem_of_nil.
Qed.

Lemma step_registers e s :
  registers_as_received s → registers_as_received (step e s).
Proof.
  destruct e as [name id yres xres | key timestamp]; simpl.
  - apply store_frame_registers.
  - apply loop_iteration_registers.
Qed.

Lemma step_writes_as_received e s :
  registers_as_received s → writes_as_received s →
  writes_as_received (step e s).
Proof.
  intros Hreg Hw w f Hin.
  destruct e as [name id yres xres | key timestamp]; simpl in Hin.
  - rewrite (proj2 (proj2 (store_frame_recorder _ _ _))) in Hin.
    by apply (Hw w).
  - apply loop_iteration_writes in Hin
      as [Hold | (name & r & l & Hi & Hl & Hf & _)]; [by apply (Hw w) | | done].
    destruct (Hreg name r l Hi Hl) as (a & Ha & Hrecv). congruence.
Qed.

Lemma due_writes_elem writers items σ name r l w :
  (name, r) ∈ items → latest_frame r = Some l →
  dict_get name writers = Some w →
  VideoWriter_write w (deref σ l) ∈ due_writes true writers items σ.
Proof.
  intros Hin Hl Hw. induction items as [|[n r'] items IH];
    [by apply elem_of_nil in Hin |].
  simpl. apply elem_of_app.
  apply elem_of_cons in Hin as [[= <- <-] | Hin]; [left | right; by apply IH].
  rewrite Hl, Hw. apply list_elem_of_here.
Qed.

(** C3. Along every run of the receiver, every frame handed to a writer
    is a frame as the receive loop stored it, with nothing drawn on it, and
    the registers keep pointing to such frames. An iteration of the loop
    first hands to the writers, in the order of the registry, the contents
    of the register of every source that holds a frame and has a writer,
    when recording is on, and hands them nothing else; so each such frame
    is written, as received. Whatever the iteration then draws, it draws on
    arrays of its own: every array that existed before keeps its
    contents. *)
Theorem recorded_frames_are_raw (ndi : nat → NDIlib) (names : list string)
    (s0 : world) (events : list event) :
  boot ndi names = Some s0 →
  let s := exec events s0 in
  (∀ w f, VideoWriter_write w f ∈ trace s →
          as_received f ∧ drawn_on f = false) ∧
  registers_as_received s ∧
  ∀ key timestamp,
    (∀ w f,
       VideoWriter_write w f ∈ trace (loop_iteration key timestamp s) →
       VideoWriter_write w f ∈ trace s ∨
       ∃ name r l,
         (name, r) ∈ receivers (recorder s) ∧ latest_frame r = Some l ∧
         heap_of s !! l = Some f ∧ as_received f ∧
         dict_get name (writers (recorder s)) = Some w ∧
         recording (recorder s) = true) ∧
    (∀ l, is_Some (heap_of s !! l) →
          heap_of (loop_iteration key timestamp s) !! l = heap_of s !! l) ∧
    (recorder_running (recorder s) = true → uncaught s = None →
     (∃ rest,
        trace (loop_iteration key timestamp s)
        = trace s
          ++ due_writes (recording (recorder s)) (writers (recorder s))
               (receivers (recorder s)) (heap_of s)
          ++ rest ∧
        Forall (λ ev, ∀ w f, ev ≠ VideoWriter_write w f) rest) ∧
     ∀ name r l w,
       recording (recorder s) = true →
       (name, r) ∈ receivers (recorder s) → latest_frame r = Some l →
       dict_get name (writers (recorder s)) = Some w →
       ∃ f, heap_of s !! l = Some f ∧ as_received f ∧ drawn_on f = false ∧
            VideoWriter_write w f ∈ trace (loop_iteration key timestamp s)).
Proof.
  intros Hboot s.
  assert (registers_as_received s ∧ writes_as_received s) as [Hreg Hw].
  { subst s.
    apply (exec_invariant (λ _, True)
             (λ s, registers_as_received s ∧ writes_as_received s)).
    - intros e s' _ [Hr Hw'].
      split; [by apply step_registers | by apply step_writes_as_received].
    - by apply Forall_forall.
    - by eapply boot_registers. }
  split.
  { intros w f Hin. split; [by apply (Hw w) |].
    by apply as_received_not_drawn_on, (Hw w). }
  split; [done |].
  intros key timestamp. split; [|split].
  - intros w f Hin.
    apply loop_iteration_writes in Hin
      as [Hold | (name & r & l & Hi & Hl & Hf & Hd & Hrec)];
      [by left | | done].
    right. exists name, r, l. repeat split; try done.
    destruct (Hreg name r l Hi Hl) as (a & Ha & Hrecv). congruence.
  - intros l Hl. by apply loop_iteration_heap.
  - intros Hrun Hunc.
    destruct (loop_iteration_due key timestamp s Hreg Hrun Hunc)
      as (rest & Htrace & Hrest).
    split; [by exists rest |].
    intros name r l w Hrec Hi Hl Hd.
    destruct (Hreg name r l Hi Hl) as (f & Hf & Hrecv).
    exists f. split; [done |]. split; [done |].
    split; [by apply as_received_not_drawn_on |].
    rewrite Htrace, Hrec. apply elem_of_app. right. apply elem_of_app. left.
    replace f with (deref (heap_of s) l) by (unfold deref; by rewrite Hf).
    by apply (due_writes_elem _ _ _ name r).
Qed.

Lemma recorded_frames_are_raw_witness :
  boot (λ _, ndi_found_at_third_poll "cam1") ["cam1"] = Some one_camera ∧
  recording (recorder one_camera_recording) = true ∧
  ∃ f, as_received f ∧
       VideoWriter_write cam1_writer f
         ∈ trace (loop_iteration (-1) "" one_camera_recording).
Proof.
  assert (boot (λ _, ndi_found_at_third_poll "cam1") ["cam1"]
          = Some one_camera) as Hboot by reflexivity.
  split; [exact Hboot |]. split; [reflexivity |].
  destruct (proj2 (proj2 (proj2 (proj2
              (recorded_frames_are_raw _ _ _
                 [video_frame "cam1" 1 720 1280;
                  iteration 114 "20250101_120000"] Hboot))
              (-1)%Z "")) eq_refl eq_refl)
    as [_ Hwritten].
  destruct (Hwritten "cam1"
              {| source_name := "cam1"; running := true;
                 ndi_recv :=
                   Some {| connected_to :=
                             Some {| ndi_name := "cam1";
                                     url_address := "192.168.0.10:5961" |} |};
                 latest_frame := Some 0%nat; thread := true |}
              0%nat cam1_writer eq_refl
              ltac:(vm_compute; apply list_elem_of_here) eq_refl eq_refl)
    as (f & _ & Hrecv & _ & Hin).
  exists f. split; [exact Hrecv | exact Hin].
Defined.

(** The run of the witness, step by step: the frame is written as
    received; the border is then drawn on the copy that was written from;
    drawing the indicator raises, so nothing is shown. *)
Example first_recording_iteration :
  let s := loop_iteration (-1) "" one_camera_recording in
  trace s
  = trace one_camera_recording
    ++ [VideoWriter_write cam1_writer
          (cvtColor (ndi_video_data 1 720 1280) "COLOR_BGRA2BGR")] ∧
  heap_of s !! 3%nat
  = Some (rectangle (cvtColor (ndi_video_data 1 720 1280) "COLOR_BGRA2BGR")
            (0, 0)%Z (1279, 719)%Z (0, 0, 255)%Z 20) ∧
  heap_of s !! 0%nat
  = Some (cvtColor (ndi_video_data 1 720 1280) "COLOR_BGRA2BGR") ∧
  uncaught s = Some (AttributeError "cv2" "FONT_HERSHEY_BOLD").
Proof. by vm_compute. Qed.

End raw_capture.

(** ** The timecode listener *)

Section timecode_threads.
Import Py Osc TimecodeSpec.
Context {A : Type}.
Variable timecode_handler :
  TimecodeReceiver → string → list A → TimecodeReceiver.
Implicit Types (self : TimecodeReceiver) (t : @thread_state A)
  (pool : list (@thread_state A)) (log : list obs) (c : @config A).

(** The five steps a thread can take. *)
Lemma thread_step_cases tid self t self' t' o :
  thread_step timecode_handler tid self t = Some (self', t', o) →
  (∃ address, t_pc t = called ∧ t_call t = call_timecode_handler address [] ∧
              self' = self ∧ t' = at_pc t (returned None) ∧ o = []) ∨
  (t_pc t = called ∧ timecode_lock self = false ∧
   (∀ address, t_call t ≠ call_timecode_handler address []) ∧
   self' = set_timecode_lock true self ∧ t' = at_pc t holding ∧ o = []) ∨
  (∃ address args,
     t_pc t = holding ∧ t_call t = call_timecode_handler address args ∧
     self' = timecode_handler self address args ∧
     t' = at_pc t (releasing None) ∧
     o = [obs_store tid (latest_timecode self')]) ∨
  (t_pc t = holding ∧ t_call t = call_get_timecode ∧ self' = self ∧
   t' = at_pc t (releasing (Some (latest_timecode self))) ∧ o = []) ∨
  (∃ ret, t_pc t = releasing ret ∧ self' = set_timecode_lock false self ∧
          t' = at_pc t (returned ret) ∧
          o = match ret with Some v => [obs_return tid v] | None => [] end).
Proof.
  unfold thread_step.
  destruct (t_pc t) as [| |ret|ret] eqn:Hpc;
    destruct (t_call t) as [address [|arg0 args]|] eqn:Hcall;
    try destruct (timecode_lock self) eqn:Hlock;
    intros [= <- <- <-]; eauto 10;
    right; left; repeat split; done.
Qed.

Lemma stored_in_app log o v : stored_in log v → stored_in (log ++ o) v.
Proof.
  intros (k & j & Hk). exists k, j. by apply lookup_app_l_Some.
Qed.

Lemma stored_before_app log o k v :
  stored_before log k v → stored_before (log ++ o) k v.
Proof.
  intros (k' & j & Hlt & Hk). exists k', j. split; [done |].
  by apply lookup_app_l_Some.
Qed.

Lemma stored_in_before log v :
  stored_in log v → stored_before log (length log) v.
Proof.
  intros (k & j & Hk). exists k, j. split; [|done].
  by eapply lookup_lt_Some.
Qed.

Lemma pool_insert_lookup pool tid t' i x :
  <[tid := t']> pool !! i = Some x →
  (i = tid ∧ x = t') ∨ (i ≠ tid ∧ pool !! i = Some x).
Proof. rewrite list_lookup_insert_Some. naive_solver. Qed.

Lemma pool_insert_calls pool tid t t' :
  pool !! tid = Some t → t_call t' = t_call t →
  t_call <$> <[tid := t']> pool = t_call <$> pool.
Proof.
  intros Ht Hcall. rewrite list_fmap_insert, Hcall.
  apply list_insert_id. by rewrite list_lookup_fmap, Ht.
Qed.

Lemma pool_call pool tid t :
  pool !! tid = Some t → (t_call <$> pool) !! tid = Some (t_call t).
Proof. intros Ht. by rewrite list_lookup_fmap, Ht. Qed.

(** Every step of the scheduler keeps the configuration consistent. *)
Lemma sched_step_consistent calls c tid :
  consistent timecode_handler calls c →
  consistent timecode_handler calls (sched_step timecode_handler c tid).
Proof.
  destruct c as [[self pool] log]. unfold sched_step.
  destruct (pool !! tid) as [t|] eqn:Ht; [|done].
  destruct (thread_step timecode_handler tid self t) as [[[self' t'] o]|]
    eqn:Hstep; [|done].
  intros (Hcalls & Hlatest & Hrel & Hret & Hnoargs & Hstore & Hdone & Hget
          & Hlogget).
  pose proof (pool_call pool tid t Ht) as Hcall. rewrite Hcalls in Hcall.
  apply thread_step_cases in Hstep
    as [(address & Hpc & Hc & -> & -> & ->)
       |[(Hpc & Hlock & Hsome & -> & -> & ->)
       |[(address & args & Hpc & Hc & -> & -> & ->)
       |[(Hpc & Hc & -> & -> & ->)
       |(ret & Hpc & -> & -> & ->)]]]];
    unfold consistent.
  - (* a handler without arguments returns *)
    rewrite app_nil_r, (pool_insert_calls pool tid t) by done.
    repeat split; try done.
    + intros i x r [[-> ->] | [_ Hi]]%pool_insert_lookup; [done | eauto].
    + intros i x a' [[-> ->] | [_ Hi]]%pool_insert_lookup; [eauto | eauto].
    + intros i x r [[-> ->] | [_ Hi]]%pool_insert_lookup; [done | eauto].
    + intros i x r [[-> ->] | [_ Hi]]%pool_insert_lookup;
        [by intros [|] | eauto].
  - (* the lock is taken *)
    rewrite app_nil_r, (pool_insert_calls pool tid t) by done.
    repeat split; try done.
    + intros i x r [[-> ->] | [_ Hi]]%pool_insert_lookup; [done | eauto].
    + intros i x a' [[-> ->] | [_ Hi]]%pool_insert_lookup; [|eauto].
      simpl. intros Hx. by destruct (Hsome a').
    + intros i x r [[-> ->] | [_ Hi]]%pool_insert_lookup; [done | eauto].
    + intros i x r [[-> ->] | [_ Hi]]%pool_insert_lookup;
        [by intros [|] | eauto].
  - (* the handler stores *)
    rewrite (pool_insert_calls pool tid t) by done.
    assert (args ≠ []) as Hargs.
    { intros ->. destruct (Hnoargs tid t address Ht Hc); congruence. }
    repeat split; try done.
    + right. exists (length log), tid. by rewrite lookup_snoc_Some; right.
    + intros i x r [[-> ->] | [_ Hi]]%pool_insert_lookup; [done |].
      intros Hx. destruct (Hrel i x r Hi Hx); [by left | right].
      by apply stored_in_app.
    + intros k i r [[_ Hk] | [_ [=]]]%lookup_snoc_Some.
      destruct (Hret k i r Hk); [by left | right].
      by apply stored_before_app.
    + intros i x a' [[-> ->] | [_ Hi]]%pool_insert_lookup; [|eauto].
      simpl. intros Hx. congruence.
    + intros k j v [[_ Hk] | [_ [= <- <-]]]%lookup_snoc_Some; [eauto |].
      exists address, args, self. rewrite <- Hc. done.
    + intros i x r [[-> ->] | [_ Hi]]%pool_insert_lookup; [done |].
      intros Hx. destruct (Hdone i x r Hi Hx) as [k Hk].
      exists k. by apply lookup_app_l_Some.
    + intros i x r [[-> ->] | [_ Hi]]%pool_insert_lookup;
        [by intros [|] | eauto].
    + intros k i r [[_ Hk] | [_ [=]]]%lookup_snoc_Some. eauto.
  - (* the reader reads *)
    rewrite app_nil_r, (pool_insert_calls pool tid t) by done.
    repeat split; try done.
    + intros i x r [[-> ->] | [_ Hi]]%pool_insert_lookup; [|eauto].
      simpl. by intros [= <-].
    + intros i x a' [[-> ->] | [_ Hi]]%pool_insert_lookup; [|eauto].
      simpl. congruence.
    + intros i x r [[-> ->] | [_ Hi]]%pool_insert_lookup; [done | eauto].
    + intros i x r [[-> ->] | [_ Hi]]%pool_insert_lookup; [done | eauto].
  - (* the lock is released and the call returns *)
    rewrite (pool_insert_calls pool tid t) by done.
    assert (∀ k e, log !! k = Some e →
                   (log ++ match ret with
                           | Some v => [obs_return tid v]
                           | None => []
                           end) !! k = Some e) as Hmono.
    { intros k e Hk. by apply lookup_app_l_Some. }
    assert (∀ k e,
              (log ++ match ret with
                      | Some v => [obs_return tid v]
                      | None => []
                      end) !! k = Some e →
              log !! k = Some e ∨
              ∃ v, ret = Some v ∧ k = length log ∧ e = obs_return tid v)
      as Hinv.
    { intros k e. destruct ret as [v|].
      - intros [[_ Hk] | [-> <-]]%lookup_snoc_Some; eauto.
      - rewrite app_nil_r. eauto. }
    repeat split; try done.
    + destruct Hlatest as [? | Hs]; [by left | right]. by apply stored_in_app.
    + intros i x r [[-> ->] | [_ Hi]]%pool_insert_lookup; [done |].
      intros Hx. destruct (Hrel i x r Hi Hx); [by left | right].
      by apply stored_in_app.
    + intros k i r [Hk | (v & -> & -> & [= -> ->])]%Hinv.
      * destruct (Hret k i r Hk); [by left | right].
        by apply stored_before_app.
      * destruct (Hrel tid t v Ht Hpc) as [? | Hs]; [by left | right].
        by apply stored_before_app, stored_in_before.
    + intros i x a' [[-> ->] | [_ Hi]]%pool_insert_lookup; [|eauto].
      simpl. intros Hx. destruct (Hnoargs tid t a' Ht Hx); congruence.
    + intros k j v [Hk | (v' & _ & _ & [=])]%Hinv. eauto.
    + intros i x r [[-> ->] | [Hne Hi]]%pool_insert_lookup.
      * simpl. intros [= ->]. exists (length log).
        by rewrite lookup_snoc_Some; right.
      * intros Hx. destruct (Hdone i x r Hi Hx) as [k Hk]. eauto.
    + intros i x r [[-> ->] | [_ Hi]]%pool_insert_lookup; [|eauto].
      simpl. intros [[=] | [= ->]]. by apply (Hget tid t r Ht); left.
    + intros k i r [Hk | (v & -> & -> & [= -> ->])]%Hinv; [eauto |].
      rewrite <- (Hget tid t v Ht); [done | by left].
Qed.

Lemma spawn_consistent port (calls : list (@call A)) :
  consistent timecode_handler calls
    (TimecodeReceiver_init port, spawn calls, []).
Proof.
  unfold consistent, spawn. repeat split; try done.
  - rewrite <- list_fmap_compose. by rewrite list_fmap_id.
  - by left.
  - intros i t r [c [-> _]]%list_lookup_fmap_Some. done.
  - intros i t a' [c [-> _]]%list_lookup_fmap_Some. by left.
  - intros i t r [c [-> _]]%list_lookup_fmap_Some. done.
  - intros i t r [c [-> _]]%list_lookup_fmap_Some. by intros [|].
Qed.

Lemma run_schedule_consistent calls schedule :
  ∀ c, consistent timecode_handler calls c →
       consistent timecode_handler calls
         (run_schedule timecode_handler schedule c).
Proof.
  induction schedule as [|tid schedule IH]; intros c Hc; [done |].
  simpl. apply IH. by apply sched_step_consistent.
Qed.

(** A reader that is not interrupted returns the value of the register
    after three steps, and changes nothing. *)
Lemma get_timecode_alone self pool log tid :
  timecode_lock self = false →
  pool !! tid = Some {| t_call := call_get_timecode; t_pc := called |} →
  run_schedule timecode_handler [tid; tid; tid] (self, pool, log)
  = (self,
     <[tid := {| t_call := call_get_timecode;
                 t_pc := returned (Some (get_timecode self)) |}]> pool,
     log ++ [obs_return tid (get_timecode self)]).
Proof.
  intros Hlock Ht.
  assert (tid < length pool)%nat as Hlen by by eapply lookup_lt_Some.
  destruct self as [p l k r m sv th]. simpl in Hlock. subst k.
  unfold run_schedule. simpl. rewrite Ht. simpl.
  rewrite list_lookup_insert_eq by done. simpl.
  rewrite list_lookup_insert_eq by (by rewrite length_insert). simpl.
  rewrite !list_insert_insert_eq, !app_nil_r. done.
Qed.

End timecode_threads.

Section timecode_claims.
Import Py Osc TimecodeSpec.

(** C7. Called without arguments, the handler of either file leaves the
    receiver as it was. Called with at least one argument, whatever the
    arguments and however many, it replaces the stored timecode and nothing
    else: the transmitter's handler by [str] of the first argument, the
    local saver's by [str] of the tuple of the first five. *)
Theorem timecode_handler_accepts_any_arguments `{Format A}
    (self : TimecodeReceiver) (address : string) :
  ndi_transmitter.timecode_handler self address ([] : list A) = self ∧
  local_saver.timecode_handler self address ([] : list A) = self ∧
  ∀ (arg0 : A) (rest : list A),
    ndi_transmitter.timecode_handler self address (arg0 :: rest)
      = set_latest_timecode (str arg0) self ∧
    latest_timecode
      (ndi_transmitter.timecode_handler self address (arg0 :: rest))
      = str arg0 ∧
    local_saver.timecode_handler self address (arg0 :: rest)
      = set_latest_timecode (str_tuple (take 5 (arg0 :: rest))) self ∧
    latest_timecode (local_saver.timecode_handler self address (arg0 :: rest))
      = str_tuple (take 5 (arg0 :: rest)).
Proof. done. Qed.

Example transmitter_handler_first_field :
  latest_timecode
    (ndi_transmitter.timecode_handler (TimecodeReceiver_init 6667)
       "/timecode" [10%Z; 20%Z; 30%Z])
  = "10".
Proof. reflexivity. Qed.

Example saver_handler_five_fields :
  latest_timecode
    (local_saver.timecode_handler (TimecodeReceiver_init 6575)
       "/asil/clock" [1%Z; 2%Z; 3%Z; 4%Z; 5%Z; 6%Z])
  = "(1, 2, 3, 4, 5)" ∧
  latest_timecode
    (local_saver.timecode_handler (TimecodeReceiver_init 6575)
       "/asil/clock" [(-7)%Z])
  = "(-7,)".
Proof. split; reflexivity. Qed.

(** C5. In every interleaving of handler calls and [get_timecode] calls on
    a new receiver, a [get_timecode] call that has returned [r] is a call
    of [get_timecode] whose return is on record, and [r] is the sentinel or
    the value a handler call stored earlier, which is [str] of the first
    argument of that call. *)
Theorem get_timecode_returns_sentinel_or_stored `{Format A} (port : Z)
    (calls : list (@call A)) (schedule : list nat) (i : nat)
    (t : @thread_state A) (r : string) :
  let c :=
    run_schedule ndi_transmitter.timecode_handler schedule
      (TimecodeReceiver_init port, spawn calls, []) in
  c.1.2 !! i = Some t →
  t_pc t = returned (Some r) →
  calls !! i = Some call_get_timecode ∧
  ∃ k,
    c.2 !! k = Some (obs_return i r) ∧
    (r = "00:00:00:00:0" ∨
     ∃ k' j address arg0 rest,
       (k' < k)%nat ∧ c.2 !! k' = Some (obs_store j r) ∧
       calls !! j = Some (call_timecode_handler address (arg0 :: rest)) ∧
       r = str arg0).
Proof.
  intros c Ht Hpc.
  pose proof (run_schedule_consistent ndi_transmitter.timecode_handler calls
                schedule _ (spawn_consistent _ port calls)) as Hc.
  fold c in Hc. destruct c as [[self pool] log]. simpl in *.
  destruct Hc as (Hcalls & _ & _ & Hret & _ & Hstore & Hdone & _ & Hlogget).
  destruct (Hdone i t r Ht Hpc) as [k Hk].
  split; [by eapply Hlogget |].
  exists k. split; [done |].
  destruct (Hret k i r Hk) as [? | (k' & j & Hlt & Hk')]; [by left | right].
  destruct (Hstore k' j r Hk')
    as (address & [|arg0 rest] & self0 & Hj & Hne & ->); [done |].
  by exists k', j, address, arg0, rest.
Qed.

Lemma get_timecode_returns_sentinel_or_stored_witness :
  let c :=
    run_schedule ndi_transmitter.timecode_handler four_calls_schedule
      (TimecodeReceiver_init 6667, spawn four_calls, []) in
  c.1.2 !! 3%nat
    = Some {| t_call := call_get_timecode; t_pc := returned (Some "30") |} ∧
  four_calls !! 3%nat = Some call_get_timecode.
Proof.
  intros c.
  assert (c.1.2 !! 3%nat
          = Some {| t_call := call_get_timecode;
                    t_pc := returned (Some "30") |}) as Ht by reflexivity.
  split; [exact Ht |].
  exact (proj1 (get_timecode_returns_sentinel_or_stored 6667 four_calls
                  four_calls_schedule 3 _ "30" Ht eq_refl)).
Defined.

(** C4, as the code has it. [stop] of either file clears the running flag
    and, if [start] has created a server, shuts its serve loop down; it
    changes nothing else. The socket stays as it was and the thread is not
    joined: after [start] and [stop] the socket is open and the thread
    unjoined. *)
Theorem stop_shuts_serve_loop_down (self : TimecodeReceiver) (ip : string) :
  local_saver.stop self = ndi_transmitter.stop self ∧
  running (ndi_transmitter.stop self) = false ∧
  server (ndi_transmitter.stop self) = shutdown <$> server self ∧
  (serving <$> server (ndi_transmitter.stop self))
    = ((λ _, false) <$> server self) ∧
  (socket_open <$> server (ndi_transmitter.stop self))
    = (socket_open <$> server self) ∧
  thread (ndi_transmitter.stop self) = thread self ∧
  latest_timecode (ndi_transmitter.stop self) = latest_timecode self ∧
  (socket_open <$> server (ndi_transmitter.stop (ndi_transmitter.start self)))
    = Some true ∧
  (joined <$> thread (ndi_transmitter.stop (ndi_transmitter.start self)))
    = Some false ∧
  (socket_open <$> server (local_saver.stop (local_saver.start ip self)))
    = Some true ∧
  (joined <$> thread (local_saver.stop (local_saver.start ip self)))
    = Some false.
Proof.
  repeat split; try done; simpl; by destruct (server self).
Qed.

(** C4, as stated, fails: after [start] and [stop] the socket is still
    open and the thread has not been joined. *)
Lemma stop_neither_unbinds_nor_joins :
  ¬ unbound_and_joined
      (ndi_transmitter.stop
         (ndi_transmitter.start (TimecodeReceiver_init 6667))).
Proof. by intros [[=] _]. Qed.

End timecode_claims.

(** ** Further properties of the receiver *)

Section registry.
Import Py Cv ndi_receiver Spec.
Implicit Types (σ : heap) (self : MultiCameraRecorder) (s : world)
  (items : list (string * NDIReceiver)) (e : event).

Lemma dict_set_keys_existing {V} (d : list (string * V)) k v :
  is_Some (dict_get k d) → dict_keys (dict_set k v d) = dict_keys d.
Proof.
  unfold dict_keys. induction d as [|[k0 v0] d IH]; simpl.
  - by intros [? ?].
  - destruct (decide (k0 = k)) as [->|Hne]; [done |].
    intros Hd. rewrite !fmap_cons. f_equal. by apply IH.
Qed.

Lemma dict_set_keys_new {V} (d : list (string * V)) k v :
  dict_get k d = None → dict_keys (dict_set k v d) = dict_keys d ++ [k].
Proof.
  unfold dict_keys. induction d as [|[k0 v0] d IH]; simpl; [done |].
  destruct (decide (k0 = k)) as [->|Hne]; [done |].
  intros Hd. rewrite !fmap_cons. simpl. f_equal. by apply IH.
Qed.

Lemma dict_set_NoDup {V} (d : list (string * V)) k v :
  NoDup (dict_keys d) → NoDup (dict_keys (dict_set k v d)).
Proof.
  intros Hnd. destruct (dict_get k d) as [v0|] eqn:Hd.
  - by rewrite dict_set_keys_existing.
  - rewrite dict_set_keys_new by done.
    apply NoDup_app. split; [done |]. split; [|apply NoDup_singleton].
    intros x Hx ->%list_elem_of_singleton.
    apply dict_get_is_Some in Hx as [? ?]. congruence.
Qed.

Lemma dict_get_elem_NoDup {V} (d : list (string * V)) k v :
  NoDup (dict_keys d) → (k, v) ∈ d → dict_get k d = Some v.
Proof.
  unfold dict_keys. induction d as [|[k0 v0] d IH]; simpl.
  - by intros _ ?%elem_of_nil.
  - intros [Hnotin Hnd]%NoDup_cons [[= -> ->] | Hin]%elem_of_cons.
    + by rewrite decide_True.
    + rewrite decide_False; [by apply IH |].
      intros ->. apply Hnotin. apply list_elem_of_fmap. by exists (k, v).
Qed.

Lemma connect_each_NoDup (ndi : nat → NDIlib) names :
  ∀ i receivers,
    NoDup (dict_keys receivers) →
    NoDup (dict_keys (connect_each ndi i names receivers)).
Proof.
  induction names as [|name names IH]; intros i receivers Hnd; simpl;
    [done |].
  destruct (start (ndi i) (NDIReceiver_init name)) as [ok receiver].
  apply IH. destruct ok; [by apply dict_set_NoDup | done].
Qed.

Lemma store_frame_keys name v_data s :
  dict_keys (receivers (recorder (store_frame name v_data s)))
  = dict_keys (receivers (recorder s)).
Proof.
  unfold store_frame.
  destruct (dict_get name (receivers (recorder s))) as [r|] eqn:Hd; [|done].
  destruct (running r && _); [|done].
  unfold receive_video. destruct (alloc _ _) as [l σ]. simpl.
  apply dict_set_keys_existing. by rewrite Hd.
Qed.

Lemma stopped_keys items :
  dict_keys (prod_map id NDIReceiver_stop <$> items) = dict_keys items.
Proof.
  unfold dict_keys. rewrite <- list_fmap_compose.
  apply list_fmap_ext. by intros ? [? ?].
Qed.

Lemma show_and_dispatch_keys key timestamp self grid σ counts out :
  dict_keys
    (receivers
       (recorder (show_and_dispatch key timestamp self grid σ counts out)))
  = dict_keys (receivers self).
Proof.
  unfold show_and_dispatch.
  destruct (Z.land key 255 =? ord_q)%Z.
  { unfold MultiCameraRecorder_stop; simpl.
    destruct (recording self); simpl; apply stopped_keys. }
  destruct (Z.land key 255 =? ord_r)%Z; [|done].
  destruct (recording self); simpl; [done |].
  unfold start_recording. by destruct (open_writers _ _ _ _).
Qed.

Lemma loop_iteration_keys key timestamp s :
  dict_keys (receivers (recorder (loop_iteration key timestamp s)))
  = dict_keys (receivers (recorder s)).
Proof.
  destruct (loop_iteration_cases key timestamp s)
    as [[-> _] | (σ1 & frames & counts & out & _ & _ & _ &
                  [(grid & σ2 & _ & ->) | (exn & σ2 & _ & ->)])];
    [done | apply show_and_dispatch_keys | done].
Qed.

Lemma step_keys e s :
  dict_keys (receivers (recorder (step e s)))
  = dict_keys (receivers (recorder s)).
Proof.
  destruct e; simpl; [apply store_frame_keys | apply loop_iteration_keys].
Qed.

Lemma open_writers_keys dir items :
  ∀ writers σ name,
    name ∈ dict_keys (open_writers dir items writers σ).1 →
    name ∈ dict_keys writers ∨ name ∈ dict_keys items.
Proof.
  induction items as [|[name0 r] items IH]; intros writers σ name; simpl;
    [by left |].
  unfold dict_keys at 3. simpl. fold (dict_keys items).
  destruct (get_latest_frame r σ) as [[copy|] σ1].
  - destruct (shape (deref σ1 copy)) as [h w].
    intros [Hin | Hin]%IH; [|right; by apply list_elem_of_further].
    apply dict_keys_set in Hin as [-> | Hin]; [right | by left].
    apply list_elem_of_here.
  - intros [Hin | Hin]%IH; [by left | right].
    by apply list_elem_of_further.
Qed.

Lemma show_and_dispatch_writers_in_order key timestamp self grid σ counts
    out :
  (recording self = false → writers self = []) →
  (∀ name, name ∈ dict_keys (writers self) →
           name ∈ dict_keys (receivers self)) →
  writers_in_order (show_and_dispatch key timestamp self grid σ counts out).
Proof.
  intros Hidle Hsub. unfold writers_in_order.
  rewrite show_and_dispatch_keys. unfold show_and_dispatch.
  destruct (Z.land key 255 =? ord_q)%Z.
  { unfold MultiCameraRecorder_stop; simpl.
    destruct (recording self) eqn:Hrec; simpl.
    - split; [done | by intros ? ?%elem_of_nil].
    - split; [by intros _; apply Hidle | done]. }
  destruct (Z.land key 255 =? ord_r)%Z; [|done].
  destruct (recording self) eqn:Hrec; simpl.
  - split; [done | by intros ? ?%elem_of_nil].
  - unfold start_recording.
    pose proof (open_writers_keys ("recordings/" +:+ timestamp)
                  (receivers self) (writers self) σ) as Hkeys.
    destruct (open_writers _ _ _ _) as [ws σ3]. simpl in *.
    split; [done |]. intros name [Hin | Hin]%Hkeys; [by apply Hsub | done].
Qed.

Lemma step_writers_in_order e s :
  writers_in_order s → writers_in_order (step e s).
Proof.
  intros [Hidle Hsub].
  destruct e as [name id yres xres | key timestamp]; simpl.
  - unfold writers_in_order. rewrite store_frame_keys.
    destruct (store_frame_recorder name (ndi_video_data id yres xres) s)
      as (-> & -> & _). done.
  - destruct (loop_iteration_cases key timestamp s)
      as [[-> _] | (σ1 & frames & counts & out & _ & _ & _ &
                    [(grid & σ2 & _ & ->) | (exn & σ2 & _ & ->)])];
      [done | by apply show_and_dispatch_writers_in_order | done].
Qed.

End registry.

Section run_properties.
Import Py Cv ndi_receiver Spec.
Implicit Types (σ : heap) (self : MultiCameraRecorder) (s : world)
  (items : list (string * NDIReceiver)) (e : event).

Lemma boot_recorder ndi names s0 :
  boot ndi names = Some s0 →
  recorder s0 =
    {| source_names := names;
       receivers := connect_each ndi 0 names [];
       writers := []; recording := false; recorder_running := true;
       output_dir := None |} ∧
  heap_of s0 = ∅ ∧ trace s0 = [].
Proof.
  unfold boot, connect_sources. simpl.
  destruct (connect_each ndi 0 names []); [done |]. by intros [= <-].
Qed.

(** The registry is fixed once the run has started: the same names in the
    same order, no name twice, whatever frames arrive and whatever keys are
    pressed; while recording is off there are no writers, and every writer
    is filed under a registered name. *)
Theorem registry_is_fixed_during_run (ndi : nat → NDIlib)
    (names : list string) (s0 : world) (events : list event) :
  boot ndi names = Some s0 →
  let s := exec events s0 in
  dict_keys (receivers (recorder s)) = dict_keys (receivers (recorder s0)) ∧
  NoDup (dict_keys (receivers (recorder s))) ∧
  (∀ name, name ∈ dict_keys (receivers (recorder s)) → name ∈ names) ∧
  (recording (recorder s) = false → writers (recorder s) = []) ∧
  (∀ name, name ∈ dict_keys (writers (recorder s)) →
           name ∈ dict_keys (receivers (recorder s))).
Proof.
  intros Hboot s.
  destruct (boot_recorder _ _ _ Hboot) as (Hrec & _ & _).
  assert (dict_keys (receivers (recorder s))
          = dict_keys (receivers (recorder s0))) as Hkeys.
  { subst s.
    apply (exec_invariant (λ _, True)
             (λ s, dict_keys (receivers (recorder s))
                   = dict_keys (receivers (recorder s0))));
      [|by apply Forall_forall | done].
    intros e s' _ Hs'. by rewrite step_keys. }
  assert (writers_in_order s) as [Hidle Hsub].
  { subst s.
    apply (exec_invariant (λ _, True) writers_in_order);
      [|by apply Forall_forall |].
    - intros e s' _. apply step_writers_in_order.
    - unfold writers_in_order. rewrite Hrec. simpl.
      split; [done | by intros ? ?%elem_of_nil]. }
  split; [done |]. rewrite Hkeys, Hrec. simpl.
  split; [apply connect_each_NoDup, NoDup_nil_2 |].
  split; [|split; [done |]].
  - intros name [[]%elem_of_nil | (j & Hj & _)]%connect_each_keys.
    by eapply list_elem_of_lookup_2.
  - intros name Hin. apply Hsub in Hin. by rewrite Hkeys, Hrec in Hin.
Qed.

Lemma registry_is_fixed_during_run_witness :
  boot (λ _, ndi_found_at_third_poll "cam1") ["cam1"] = Some one_camera ∧
  dict_keys
    (receivers
       (recorder
          (exec [video_frame "cam1" 1 720 1280;
                 iteration 114 "20250101_120000"; iteration 113 ""]
             one_camera)))
  = dict_keys (receivers (recorder one_camera)).
Proof.
  assert (boot (λ _, ndi_found_at_third_poll "cam1") ["cam1"]
          = Some one_camera) as Hboot by reflexivity.
  split; [exact Hboot |].
  exact (proj1 (registry_is_fixed_during_run _ _ _
                  [video_frame "cam1" 1 720 1280;
                   iteration 114 "20250101_120000"; iteration 113 ""]
                  Hboot)).
Defined.










End run_properties.

Section connect_outcome.
Import Py Cv ndi_receiver Spec.
Implicit Types (ndi : NDIlib) (self : NDIReceiver).

Lemma wait_for_source_found name ndi attempts :
  ∀ k0 sources k,
    (k0 ≤ k < k0 + attempts)%nat →
    (∀ j, (k0 ≤ j < k)%nat →
          existsb (is_named name) (find_get_current_sources ndi j) = false) →
    existsb (is_named name) (find_get_current_sources ndi k) = true →
    wait_for_source name ndi attempts k0 sources
    = (find_get_current_sources ndi k, S k).
Proof.
  induction attempts as [|attempts IH]; intros k0 sources k Hk Hno Hyes;
    [lia |].
  simpl. destruct (decide (k = k0)) as [->|Hne].
  - by rewrite Hyes.
  - rewrite (Hno k0) by lia. apply IH; [lia | | done].
    intros j Hj. apply Hno. lia.
Qed.

Lemma wait_for_source_seen name ndi attempts :
  ∀ k0 sources k,
    (k0 ≤ k < k0 + attempts)%nat →
    existsb (is_named name) (find_get_current_sources ndi k) = true →
    existsb (is_named name) (wait_for_source name ndi attempts k0 sources).1
    = true.
Proof.
  induction attempts as [|attempts IH]; intros k0 sources k Hk Hyes; [lia |].
  simpl.
  destruct (existsb (is_named name) (find_get_current_sources ndi k0))
    eqn:Hk0; [done |].
  apply (IH _ _ k); [|done].
  destruct (decide (k = k0)) as [->|Hne]; [congruence | lia].
Qed.

Lemma wait_for_source_origin name ndi attempts :
  ∀ k0 sources,
    (wait_for_source name ndi attempts k0 sources).1 = sources ∨
    ∃ k, (k0 ≤ k < k0 + attempts)%nat ∧
         (wait_for_source name ndi attempts k0 sources).1
         = find_get_current_sources ndi k.
Proof.
  induction attempts as [|attempts IH]; intros k0 sources; simpl;
    [by left |].
  right. destruct (existsb _ _).
  - exists k0. split; [lia | done].
  - destruct (IH (S k0) (find_get_current_sources ndi k0))
      as [-> | (k & Hk & ->)].
    + exists k0. split; [lia | done].
    + exists k. split; [lia | done].
Qed.

Lemma wait_for_source_exhausted name ndi attempts :
  ∀ k0 sources,
    (∀ j, (k0 ≤ j < k0 + attempts)%nat →
          existsb (is_named name) (find_get_current_sources ndi j) = false) →
    (wait_for_source name ndi attempts k0 sources).2 = (k0 + attempts)%nat.
Proof.
  induction attempts as [|attempts IH]; intros k0 sources Hno; simpl;
    [lia |].
  rewrite (Hno k0) by lia. rewrite IH; [lia |].
  intros j Hj. apply Hno. lia.
Qed.

Lemma find_existsb_true {A} (p : A → bool) (l : list A) :
  existsb p l = true → is_Some (find p l).
Proof.
  induction l as [|x l IH]; simpl; [done |].
  destruct (p x); simpl; eauto.
Qed.

Lemma find_Some_existsb {A} (p : A → bool) (l : list A) x :
  find p l = Some x → existsb p l = true ∧ p x = true.
Proof.
  induction l as [|y l IH]; simpl; [done |].
  destruct (p y) eqn:Hy; simpl; [by intros [= <-] | done].
Qed.

(** [connect] succeeds exactly when the library initialises, the finder is
    created, one of the first 20 polls of the source list shows a source
    of the wanted name, and the receive instance is created. *)
Theorem connect_succeeds_iff (ndi : NDIlib) (self : NDIReceiver) :
  (connect ndi self).1.1 = true ↔
  initialize ndi = true ∧ find_create_v2 ndi = true ∧
  (∃ k, (k < 20)%nat ∧
        existsb (is_named (source_name self))
          (find_get_current_sources ndi k) = true) ∧
  recv_create_v3 ndi = true.
Proof.
  unfold connect.
  destruct (initialize ndi); cbn [negb]; [|naive_solver].
  destruct (find_create_v2 ndi); cbn [negb]; [|naive_solver].
  pose proof (wait_for_source_origin (source_name self) ndi 20 0 []) as Horig.
  pose proof (wait_for_source_seen (source_name self) ndi 20 0 []) as Hseen.
  destruct (wait_for_source _ _ _ _ _) as [sources polls]. simpl in *.
  destruct (find (is_named (source_name self)) sources) as [source|] eqn:Hf.
  - apply find_Some_existsb in Hf as [Hex _].
    destruct Horig as [-> | (k & Hk & ->)]; [done |].
    destruct (recv_create_v3 ndi); simpl; [|naive_solver].
    split; [|done]. intros _. repeat split; try done.
    exists k. split; [lia | done].
  - simpl. split; [done |]. intros (_ & _ & (k & Hk & Hyes) & _).
    specialize (Hseen k ltac:(lia) Hyes).
    apply find_existsb_true in Hseen as [x Hx]. congruence.
Qed.

(** Polling stops at the first poll that shows the name: if that is poll
    [k] of the 20, [connect] makes [k + 1] polls and, when the receive
    instance is created, binds it to the first source of that name in the
    list of that poll and reports success. *)
Theorem connect_stops_at_first_sighting (ndi : NDIlib) (self : NDIReceiver)
    (k : nat) :
  initialize ndi = true → find_create_v2 ndi = true →
  (k < 20)%nat →
  (∀ j, (j < k)%nat →
        existsb (is_named (source_name self))
          (find_get_current_sources ndi j) = false) →
  existsb (is_named (source_name self)) (find_get_current_sources ndi k)
  = true →
  (connect ndi self).2 = S k ∧
  (recv_create_v3 ndi = true →
   (connect ndi self).1.1 = true ∧
   ∃ source,
     find (is_named (source_name self)) (find_get_current_sources ndi k)
     = Some source ∧
     ndi_name source = source_name self ∧
     ndi_recv (connect ndi self).1.2
     = Some {| connected_to := Some source |}) ∧
  (recv_create_v3 ndi = false →
   (connect ndi self).1.1 = false ∧ ndi_recv (connect ndi self).1.2 = None).
Proof.
  intros Hinit Hfind Hk Hno Hyes. unfold connect.
  rewrite Hinit, Hfind. cbn [negb].
  rewrite (wait_for_source_found (source_name self) ndi 20 0 [] k);
    [|lia | intros j Hj; apply Hno; lia | done].
  destruct (find_existsb_true _ _ Hyes) as [source Hsource].
  rewrite Hsource.
  destruct (find_Some_existsb _ _ _ Hsource) as [_ Hname].
  apply bool_decide_eq_true in Hname.
  destruct (recv_create_v3 ndi); simpl.
  - split; [done |]. split; [|done]. intros _. split; [done |].
    by exists source.
  - split; [done |]. split; [done |]. done.
Qed.

Lemma connect_stops_at_first_sighting_witness :
  initialize (ndi_found_at_third_poll "cam1") = true ∧
  (connect (ndi_found_at_third_poll "cam1") (NDIReceiver_init "cam1")).2
  = 3%nat.
Proof.
  split; [reflexivity |].
  refine (proj1 (connect_stops_at_first_sighting
                   (ndi_found_at_third_poll "cam1") (NDIReceiver_init "cam1")
                   2 eq_refl eq_refl _ _ eq_refl)).
  - lia.
  - intros j Hj. destruct j as [|[|j]]; [reflexivity | reflexivity | lia].
Defined.

(** Without the library or the finder [connect] fails before any poll and
    leaves the receiver as it was; with both, a name that none of the 20
    polls shows costs exactly 20 polls and leaves the receiver as it was. *)
Theorem connect_failures (ndi : NDIlib) (self : NDIReceiver) :
  (initialize ndi = false ∨ find_create_v2 ndi = false →
   connect ndi self = (false, self, 0%nat)) ∧
  (initialize ndi = true → find_create_v2 ndi = true →
   (∀ j, (j < 20)%nat →
         existsb (is_named (source_name self))
           (find_get_current_sources ndi j) = false) →
   connect ndi self = (false, self, 20%nat)).
Proof.
  split.
  - unfold connect. intros [-> | Hf]; [done |].
    destruct (initialize ndi); [|done]. by rewrite Hf.
  - intros Hinit Hfind Hno. unfold connect. rewrite Hinit, Hfind.
    cbn [negb].
    pose proof (wait_for_source_exhausted (source_name self) ndi 20 0 [])
      as Hpolls.
    pose proof (wait_for_source_missing (source_name self) ndi 20 0 []
                  eq_refl) as Hmiss.
    destruct (wait_for_source _ _ _ _ _) as [sources polls]. simpl in *.
    rewrite find_existsb_false; [|apply Hmiss; intros j Hj; apply Hno; lia].
    rewrite Hpolls; [done |]. intros j Hj. apply Hno. lia.
Qed.

End connect_outcome.

Section writers_and_registers.
Import Py Cv ndi_receiver Spec.
Implicit Types (σ : heap) (self : MultiCameraRecorder)
  (items : list (string * NDIReceiver)).

Lemma open_writers_other dir name items :
  ∀ writers σ,
    name ∉ dict_keys items →
    dict_get name (open_writers dir items writers σ).1
    = dict_get name writers.
Proof.
  intros writers σ Hnot. apply open_writers_no_frame.
  intros r Hin. destruct Hnot. apply list_elem_of_fmap. by exists (name, r).
Qed.

Lemma open_writers_opens dir name r l a items :
  ∀ writers σ,
    NoDup (dict_keys items) →
    (name, r) ∈ items → latest_frame r = Some l → σ !! l = Some a →
    dict_get name (open_writers dir items writers σ).1
    = Some {| output_path := dir +:+ "/" +:+ name +:+ ".mp4";
              fourcc := "mp4v"; fps := 60;
              frameSize := ((shape a).2, (shape a).1) |}.
Proof.
  induction items as [|[name0 r0] items IH];
    intros writers σ Hnd Hin Hl Ha; [by apply elem_of_nil in Hin |].
  unfold dict_keys in Hnd. simpl in Hnd.
  apply NoDup_cons in Hnd as [Hnotin Hnd].
  apply elem_of_cons in Hin as [[= <- <-] | Hin]; simpl.
  - rewrite (get_latest_frame_present r σ l Hl).
    assert (deref (alloc (deref σ l) σ).2 (alloc (deref σ l) σ).1 = a) as ->.
    { unfold deref at 1. rewrite alloc_lookup. unfold deref. by rewrite Ha. }
    destruct (shape a) as [h w]. simpl.
    rewrite open_writers_other by done. apply dict_get_set_eq.
  - assert (name0 ≠ name) as Hne.
    { intros ->. apply Hnotin. apply list_elem_of_fmap. by exists (name, r). }
    pose proof (get_latest_frame_extends r0 σ l ltac:(by rewrite Ha)) as Hext.
    destruct (get_latest_frame r0 σ) as [[copy|] σ1]; simpl in Hext.
    + destruct (shape (deref σ1 copy)) as [h w].
      apply IH; [done.. | by rewrite Hext].
    + apply IH; [done.. | by rewrite Hext].
Qed.

(** [start_recording] opens, for every registered source that holds a
    frame, a writer filed under the source's name: the file is
    recordings/<timestamp>/<name>.mp4, the codec mp4v, the rate 60, and the
    frame size is (width, height) of the frame the register holds. It turns
    recording on, stores the directory, and leaves every array that existed
    before as it was. *)
Theorem start_recording_opens_writers (timestamp : string)
    (self : MultiCameraRecorder) (σ : heap) (name : string)
    (r : NDIReceiver) (l : loc) (a : ndarray) :
  NoDup (dict_keys (receivers self)) →
  (name, r) ∈ receivers self →
  latest_frame r = Some l →
  σ !! l = Some a →
  let started := start_recording timestamp self σ in
  dict_get name (writers started.1)
  = Some {| output_path :=
              ("recordings/" +:+ timestamp) +:+ "/" +:+ name +:+ ".mp4";
            fourcc := "mp4v"; fps := 60;
            frameSize := ((shape a).2, (shape a).1) |} ∧
  recording started.1 = true ∧
  output_dir started.1 = Some ("recordings/" +:+ timestamp) ∧
  receivers started.1 = receivers self ∧
  ∀ l', is_Some (σ !! l') → started.2 !! l' = σ !! l'.
Proof.
  intros Hnd Hin Hl Ha started. subst started. unfold start_recording.
  pose proof (open_writers_opens ("recordings/" +:+ timestamp) name r l a
                (receivers self) (writers self) σ Hnd Hin Hl Ha) as Hw.
  pose proof (open_writers_extends ("recordings/" +:+ timestamp)
                (receivers self) (writers self) σ) as Hext.
  destruct (open_writers _ _ _ _) as [ws σ']. simpl in *.
  repeat split; done.
Qed.

Lemma start_recording_opens_writers_witness :
  let s := exec [video_frame "cam1" 1 720 1280] one_camera in
  NoDup (dict_keys (receivers (recorder s))) ∧
  (frameSize <$>
     dict_get "cam1"
       (writers (start_recording "20250101_120000" (recorder s)
                   (heap_of s)).1))
  = Some (1280, 720)%Z.
Proof.
  intros s.
  assert (NoDup (dict_keys (receivers (recorder s)))) as Hnd
    by (apply (bool_decide_unpack _); vm_compute; exact I).
  split; [exact Hnd |].
  pose proof (proj1 (start_recording_opens_writers "20250101_120000"
                       (recorder s) (heap_of s) "cam1"
                       {| source_name := "cam1"; running := true;
                          ndi_recv :=
                            Some {| connected_to :=
                                      Some {| ndi_name := "cam1";
                                              url_address :=
                                                "192.168.0.10:5961" |} |};
                          latest_frame := Some 0%nat; thread := true |}
                       0%nat
                       (cvtColor (ndi_video_data 1 720 1280) "COLOR_BGRA2BGR")
                       Hnd ltac:(vm_compute; apply list_elem_of_here)
                       eq_refl eq_refl)) as Hw.
  rewrite Hw. reflexivity.
Defined.

(** Store then read: after the receive loop has stored a frame, the next
    [get_latest_frame] returns a new array holding the colour-converted
    data of that frame, whatever the register held before, and neither
    call changes an array that existed before. *)
Theorem stored_frame_is_returned (v_data : ndarray) (self : NDIReceiver)
    (σ : heap) :
  let stored := receive_video v_data self σ in
  let got := get_latest_frame stored.1 stored.2 in
  source_name stored.1 = source_name self ∧
  running stored.1 = running self ∧
  (∃ copy,
     got.1 = Some copy ∧
     latest_frame stored.1 ≠ Some copy ∧
     σ !! copy = None ∧
     got.2 !! copy = Some (cvtColor v_data "COLOR_BGRA2BGR")) ∧
  ∀ l, is_Some (σ !! l) → got.2 !! l = σ !! l.
Proof.
  intros stored got. subst stored got. unfold receive_video.
  set (a := cvtColor v_data "COLOR_BGRA2BGR").
  pose proof (alloc_lookup a σ) as Hnew.
  pose proof (alloc_fresh a σ) as Hfresh.
  pose proof (λ l, alloc_old a σ l) as Hold.
  destruct (alloc a σ) as [l0 σ1]. cbn [fst snd] in *.
  unfold get_latest_frame. cbn [latest_frame fst snd].
  assert (deref σ1 l0 = a) as -> by (unfold deref; by rewrite Hnew).
  pose proof (alloc_lookup a σ1) as Hnew'.
  pose proof (alloc_fresh a σ1) as Hfresh'.
  pose proof (λ l, alloc_old a σ1 l) as Hold'.
  destruct (alloc a σ1) as [copy σ2]. cbn [fst snd] in *.
  split; [done |]. split; [done |]. split.
  - exists copy. split; [done |].
    assert (copy ≠ l0) as Hne by (intros ->; congruence).
    split; [congruence |]. split; [|done].
    destruct (σ !! copy) eqn:Hc; [|done].
    rewrite <- (Hold copy) in Hc by eauto. congruence.
  - intros l Hl. rewrite Hold'; [by apply Hold |]. by rewrite Hold.
Qed.

End writers_and_registers.

Section timecode_lock.
Import Py Osc TimecodeSpec.
Context {A : Type}.
Variable timecode_handler :
  TimecodeReceiver → string → list A → TimecodeReceiver.
Hypothesis handler_keeps_lock :
  ∀ self address args,
    timecode_lock (timecode_handler self address args) = timecode_lock self.
Implicit Types (self : TimecodeReceiver) (t : @thread_state A)
  (pool : list (@thread_state A)) (log : list obs) (c : @config A).

Lemma current_snoc_store log j v : current (log ++ [obs_store j v]) = v.
Proof. unfold current. by rewrite foldl_app. Qed.

Lemma current_snoc_return log i r :
  current (log ++ [obs_return i r]) = current log.
Proof. unfold current. by rewrite foldl_app. Qed.

Lemma take_snoc_lookup log (o : obs) k e :
  log !! k = Some e → take k (log ++ [o]) = take k log.
Proof.
  intros Hk. apply take_app_le. apply lookup_lt_Some in Hk. lia.
Qed.

(** Every step of the scheduler keeps the lock's guarantees. *)
Lemma sched_step_exclusive c tid :
  exclusive c → exclusive (sched_step timecode_handler c tid).
Proof using handler_keeps_lock.
  destruct c as [[self pool] log]. unfold sched_step.
  destruct (pool !! tid) as [t|] eqn:Ht; [|done].
  destruct (thread_step timecode_handler tid self t) as [[[self' t'] o]|]
    eqn:Hstep; [|done].
  intros (Hone & Hlock & Hlatest & Hread & Hret).
  assert (∀ i x, in_critical t → pool !! i = Some x → in_critical x →
                 i = tid) as Hsole.
  { intros i x Hcs Hi Hx. by apply (Hone i tid x t). }
  apply thread_step_cases in Hstep
    as [(address & Hpc & Hc & -> & -> & ->)
       |[(Hpc & Hfree & Hsome & -> & -> & ->)
       |[(address & args & Hpc & Hc & -> & -> & ->)
       |[(Hpc & Hc & -> & -> & ->)
       |(ret & Hpc & -> & -> & ->)]]]];
    unfold exclusive.
  - (* a handler without arguments returns: it was not in, and is not *)
    rewrite app_nil_r.
    assert (¬ in_critical t) as Hout.
    { intros [? | [? ?]]; congruence. }
    assert (∀ i x, <[tid := at_pc t (returned None)]> pool !! i = Some x →
                   in_critical x → pool !! i = Some x) as Hsame.
    { intros i x [[-> ->] | [_ Hi]]%pool_insert_lookup; [|done].
      intros [? | [? ?]]; simpl in *; congruence. }
    split; [|split; [|split; [done |split; [|done]]]].
    + intros i j ti tj Hi Hj Hci Hcj. eapply Hone; eauto.
    + rewrite Hlock. split.
      * intros (i & x & Hi & Hx). exists i, x. split; [|done].
        rewrite list_lookup_insert_ne; [done |]. intros <-.
        rewrite Ht in Hi. by injection Hi as <-.
      * intros (i & x & Hi & Hx). eauto.
    + intros i x r [[-> ->] | [_ Hi]]%pool_insert_lookup; [done | eauto].
  - (* the lock is taken: nobody was in *)
    rewrite app_nil_r.
    assert (∀ i x, pool !! i = Some x → ¬ in_critical x) as Hnone.
    { intros i x Hi Hx.
      assert (timecode_lock self = true) by (apply Hlock; eauto).
      congruence. }
    split; [|split; [|split; [done |split; [|done]]]].
    + intros i j ti tj [[-> ->] | [Hne Hi]]%pool_insert_lookup
        [[-> ->] | [Hne' Hj]]%pool_insert_lookup Hci Hcj; try done.
      * by destruct (Hnone j tj Hj).
      * by destruct (Hnone i ti Hi).
      * by destruct (Hnone i ti Hi).
    + simpl. split; [|done]. intros _. exists tid, (at_pc t holding).
      split; [|by left].
      apply list_lookup_insert_eq. by eapply lookup_lt_Some.
    + intros i x r [[-> ->] | [_ Hi]]%pool_insert_lookup; [done | eauto].
  - (* the handler stores: it is the one that is in *)
    assert (in_critical t) as Hin by by left.
    split; [|split; [|split; [|split]]].
    + intros i j ti tj [[-> ->] | [Hne Hi]]%pool_insert_lookup
        [[-> ->] | [Hne' Hj]]%pool_insert_lookup Hci Hcj; try done.
      * by destruct Hne'; apply (Hsole j tj).
      * by destruct Hne; apply (Hsole i ti).
      * by apply (Hone i j ti tj).
    + rewrite handler_keeps_lock.
      assert (timecode_lock self = true) as -> by (apply Hlock; eauto).
      split; [|done]. intros _. exists tid, (at_pc t (releasing None)).
      split; [|right; by eexists].
      apply list_lookup_insert_eq. by eapply lookup_lt_Some.
    + by rewrite current_snoc_store.
    + intros i x r [[-> ->] | [Hne Hi]]%pool_insert_lookup; [done |].
      intros Hx. destruct Hne. apply (Hsole i x); [done.. |].
      right. by eexists.
    + intros k i r [[Hlt Hk] | [_ [=]]]%lookup_snoc_Some.
      rewrite (take_snoc_lookup _ _ _ _ Hk). eauto.
  - (* the reader reads *)
    rewrite app_nil_r.
    assert (in_critical t) as Hin by by left.
    split; [|split; [|split; [done |split; [|done]]]].
    + intros i j ti tj [[-> ->] | [Hne Hi]]%pool_insert_lookup
        [[-> ->] | [Hne' Hj]]%pool_insert_lookup Hci Hcj; try done.
      * by destruct Hne'; apply (Hsole j tj).
      * by destruct Hne; apply (Hsole i ti).
      * by apply (Hone i j ti tj).
    + assert (timecode_lock self = true) as -> by (apply Hlock; eauto).
      split; [|done]. intros _.
      exists tid, (at_pc t (releasing (Some (latest_timecode self)))).
      split; [|right; by eexists].
      apply list_lookup_insert_eq. by eapply lookup_lt_Some.
    + intros i x r [[-> ->] | [_ Hi]]%pool_insert_lookup; [|eauto].
      simpl. intros [= <-]. done.
  - (* the lock is released: nobody is in any more *)
    assert (in_critical t) as Hin by (right; by eexists).
    assert (∀ i x, <[tid := at_pc t (returned ret)]> pool !! i = Some x →
                   ¬ in_critical x) as Hnone.
    { intros i x [[-> ->] | [Hne Hi]]%pool_insert_lookup Hx.
      - destruct Hx as [? | [? ?]]; simpl in *; congruence.
      - destruct Hne. by apply (Hsole i x). }
    assert (current (log ++ match ret with
                            | Some v => [obs_return tid v]
                            | None => []
                            end) = current log) as Hcur.
    { destruct ret; [apply current_snoc_return | by rewrite app_nil_r]. }
    split; [|split; [|split; [|split]]].
    + intros i j ti tj Hi Hj Hci. by destruct (Hnone i ti Hi).
    + simpl. split; [done |]. intros (i & x & Hi & Hx).
      by destruct (Hnone i x Hi).
    + by rewrite Hcur.
    + intros i x r Hi Hx. destruct (Hnone i x Hi). right. by eexists.
    + intros k i r. destruct ret as [v|]; [|rewrite app_nil_r; eauto].
      intros [[Hlt Hk] | [-> [= <- <-]]]%lookup_snoc_Some.
      * rewrite (take_snoc_lookup _ _ _ _ Hk). eauto.
      * rewrite take_app_length. by apply (Hread tid t).
Qed.

Lemma spawn_exclusive port (calls : list (@call A)) :
  exclusive (TimecodeReceiver_init port, spawn calls, []).
Proof.
  unfold exclusive.
  assert (∀ i t, spawn calls !! i
                 = Some t → ¬ in_critical t) as Hnone.
  { unfold spawn. intros i t [k [-> _]]%list_lookup_fmap_Some [? | [? ?]];
      done. }
  split; [|split; [|split; [done |split; [|done]]]].
  - intros i j ti tj Hi _ Hci. by destruct (Hnone i ti Hi).
  - simpl. split; [done |]. intros (i & t & Hi & Ht).
    by destruct (Hnone i t Hi).
  - intros i t r Hi Ht. destruct (Hnone i t Hi). right. by eexists.
Qed.

Lemma run_schedule_exclusive schedule :
  ∀ c, exclusive c → exclusive (run_schedule timecode_handler schedule c).
Proof using handler_keeps_lock.
  induction schedule as [|tid schedule IH]; intros c Hc; [done |].
  simpl. apply IH. by apply sched_step_exclusive.
Qed.

(** A step brings a call closer to its return. *)
Lemma thread_step_steps_left tid self t self' t' o :
  thread_step timecode_handler tid self t = Some (self', t', o) →
  (steps_left t' < steps_left t)%nat.
Proof.
  intros Hstep. apply thread_step_cases in Hstep
    as [(address & Hpc & Hc & -> & -> & ->)
       |[(Hpc & Hfree & Hsome & -> & -> & ->)
       |[(address & args & Hpc & Hc & -> & -> & ->)
       |[(Hpc & Hc & -> & -> & ->)
       |(ret & Hpc & -> & -> & ->)]]]];
    unfold steps_left; rewrite Hpc; simpl; lia.
Qed.

(** While a call has not returned, some thread can take a step. *)
Lemma exclusive_progress self pool log i t :
  exclusive (self, pool, log) →
  pool !! i = Some t → (0 < steps_left t)%nat →
  ∃ tid t0 self' t' o,
    pool !! tid = Some t0 ∧
    thread_step timecode_handler tid self t0 = Some (self', t', o).
Proof.
  intros (_ & Hlock & _) Hi Hleft.
  assert (∀ j x, pool !! j = Some x → in_critical x →
                 ∃ self' t' o,
                   thread_step timecode_handler j self x
                   = Some (self', t', o)) as Hin.
  { intros j x Hj Hx. unfold thread_step.
    destruct Hx as [-> | [ret ->]].
    - destruct (t_call x); eauto.
    - destruct (t_call x); eauto. }
  destruct (timecode_lock self) eqn:Hl.
  - destruct (proj1 Hlock eq_refl) as (j & x & Hj & Hx).
    destruct (Hin j x Hj Hx) as (? & ? & ? & ?). eauto 10.
  - unfold steps_left in Hleft.
    destruct (t_pc t) as [| |ret|ret] eqn:Hpc; [| | |lia].
    + exists i, t. unfold thread_step. rewrite Hpc, Hl.
      destruct (t_call t) as [address [|arg0 args]|]; eauto.
    + destruct (Hin i t Hi ltac:(by left)) as (? & ? & ? & ?). eauto 10.
    + destruct (Hin i t Hi ltac:(right; by eexists)) as (? & ? & ? & ?).
      eauto 10.
Qed.

End timecode_lock.

Section timecode_properties.
Import Py Osc TimecodeSpec.
Context `{Format A}.

Lemma transmitter_handler_keeps_lock (self : TimecodeReceiver)
    (address : string) (args : list A) :
  timecode_lock (ndi_transmitter.timecode_handler self address args)
  = timecode_lock self.
Proof. by destruct args. Qed.

Lemma saver_handler_keeps_lock (self : TimecodeReceiver) (address : string)
    (args : list A) :
  timecode_lock (local_saver.timecode_handler self address args)
  = timecode_lock self.
Proof. by destruct args. Qed.

(** The lock works. In every interleaving of handler calls and
    [get_timecode] calls on a new receiver, with the handler of either
    file, at most one call is between taking the lock and giving it back,
    and the lock is held exactly when there is such a call. *)
Theorem timecode_lock_is_exclusive (port : Z) (calls : list (@call A))
    (schedule : list nat) :
  let start := (TimecodeReceiver_init port, spawn calls, []) in
  let c1 := run_schedule ndi_transmitter.timecode_handler schedule start in
  let c2 := run_schedule local_saver.timecode_handler schedule start in
  ((∀ i j ti tj, c1.1.2 !! i = Some ti → c1.1.2 !! j = Some tj →
                 in_critical ti → in_critical tj → i = j) ∧
   (timecode_lock c1.1.1 = true
    ↔ ∃ i t, c1.1.2 !! i = Some t ∧ in_critical t)) ∧
  ((∀ i j ti tj, c2.1.2 !! i = Some ti → c2.1.2 !! j = Some tj →
                 in_critical ti → in_critical tj → i = j) ∧
   (timecode_lock c2.1.1 = true
    ↔ ∃ i t, c2.1.2 !! i = Some t ∧ in_critical t)).
Proof.
  intros start c1 c2.
  pose proof (run_schedule_exclusive ndi_transmitter.timecode_handler
                transmitter_handler_keeps_lock schedule start
                (spawn_exclusive port calls)) as H1.
  pose proof (run_schedule_exclusive local_saver.timecode_handler
                saver_handler_keeps_lock schedule start
                (spawn_exclusive port calls)) as H2.
  fold c1 in H1. fold c2 in H2.
  destruct c1 as [[self1 pool1] log1], c2 as [[self2 pool2] log2].
  destruct H1 as (Hone1 & Hlock1 & _), H2 as (Hone2 & Hlock2 & _).
  done.
Qed.


(** No call waits for ever. In every configuration reached, as long as
    some call has not returned some thread can take a step, and a step
    brings the call that takes it closer to its return, which is at most
    three steps away. *)
Theorem timecode_calls_make_progress (port : Z) (calls : list (@call A))
    (schedule : list nat) :
  let c :=
    run_schedule ndi_transmitter.timecode_handler schedule
      (TimecodeReceiver_init port, spawn calls, []) in
  (∀ i t, c.1.2 !! i = Some t → (steps_left t ≤ 3)%nat) ∧
  ∀ i t,
    c.1.2 !! i = Some t → (0 < steps_left t)%nat →
    ∃ tid t0 self' t' o,
      c.1.2 !! tid = Some t0 ∧
      thread_step ndi_transmitter.timecode_handler tid c.1.1 t0
      = Some (self', t', o) ∧
      (steps_left t' < steps_left t0)%nat.
Proof.
  intros c.
  pose proof (run_schedule_exclusive ndi_transmitter.timecode_handler
                transmitter_handler_keeps_lock schedule _
                (spawn_exclusive port calls)) as Hex.
  fold c in Hex. destruct c as [[self pool] log]. simpl. split.
  - intros i t _. unfold steps_left. destruct (t_pc t); lia.
  - intros i t Hi Hleft.
    destruct (exclusive_progress ndi_transmitter.timecode_handler self pool
                log i t Hex Hi Hleft)
      as (tid & t0 & self' & t' & o & Ht0 & Hstep).
    exists tid, t0, self', t', o. split; [done |]. split; [done |].
    by eapply thread_step_steps_left.
Qed.

(** Run one after the other, the calls do what the methods do: a handler
    call alone takes the receiver to [timecode_handler] of it, in at most
    three steps, and leaves the lock free. *)
Theorem handler_call_alone (self : TimecodeReceiver)
    (pool : list (@thread_state A)) (log : list obs) (tid : nat)
    (address : string) (args : list A) :
  timecode_lock self = false →
  pool !! tid
  = Some {| t_call := call_timecode_handler address args; t_pc := called |} →
  let c :=
    run_schedule ndi_transmitter.timecode_handler [tid; tid; tid]
      (self, pool, log) in
  c.1.1 = ndi_transmitter.timecode_handler self address args ∧
  c.1.2 = <[tid := {| t_call := call_timecode_handler address args;
                      t_pc := returned None |}]> pool ∧
  c.2 = log ++ match args with
               | [] => []
               | arg0 :: _ => [obs_store tid (str arg0)]
               end.
Proof.
  intros Hlock Ht c. subst c.
  assert (tid < length pool)%nat as Hlen by by eapply lookup_lt_Some.
  destruct self as [p l k r m sv th]. simpl in Hlock. subst k.
  unfold run_schedule. destruct args as [|arg0 args]; simpl; rewrite Ht; simpl.
  - rewrite list_lookup_insert_eq by done. simpl.
    rewrite list_lookup_insert_eq by done. simpl.
    by rewrite !app_nil_r.
  - rewrite list_lookup_insert_eq by done. simpl.
    rewrite list_lookup_insert_eq by (by rewrite length_insert). simpl.
    rewrite !list_insert_insert_eq, !app_nil_r. done.
Qed.

End timecode_properties.

Section timecode_witnesses.
Import Py Osc TimecodeSpec.

Lemma handler_call_alone_witness :
  let c :=
    run_schedule ndi_transmitter.timecode_handler [0; 0; 0]%nat
      (TimecodeReceiver_init 6667, spawn four_calls, []) in
  timecode_lock (TimecodeReceiver_init 6667) = false ∧
  c.1.1
  = ndi_transmitter.timecode_handler (TimecodeReceiver_init 6667)
      "/timecode" [10%Z; 20%Z].
Proof.
  intros c. split; [reflexivity |].
  exact (proj1 (handler_call_alone (TimecodeReceiver_init 6667)
                  (spawn four_calls) [] 0 "/timecode" [10%Z; 20%Z]
                  eq_refl eq_refl)).
Defined.

End timecode_witnesses.
